(** * Zentra: price aggregation and balance synchronisation

    A shallow embedding of the two client-side hooks of the repository,

      - [src/hooks/use-crypto-prices.ts]  (module [CryptoPrices]), and
      - the balance hook [useBalance]     (module [BalanceHook]),

    followed by the notions used to state their properties ([PriceNotions],
    [BalanceNotions], [MoreNotions], [RoundNotions]) and by the properties
    themselves ([PriceProofs], [BalanceProofs], [PriceExtras],
    [RoundProofs], [BalanceExtras]).

    Conventions of the embedding.

      - A JavaScript [number] is an IEEE-754 double: Rocq's primitive [float].
        Clock readings ([Date.now()]) and counters are integers and are kept
        in [Z] and [nat].
      - An object used as a dictionary is a [gmap string _]; a constant table
        whose iteration order matters is an association list in source order.
        A [gmap] holds own properties; where the code indexes a plain object
        with a key taken from the network ([symbolMap]), the members
        inherited from [Object.prototype] are looked up as well.
      - Mutable module state, React state and refs are threaded explicitly.
      - The network is an input: every request is answered by a [Reply], and
        every URL handed to [fetch] is appended to the world's [fetched] log.
      - [console] output is not modelled, so a thrown error carries no text. *)

From Stdlib Require Import Floats ZArith Lia Ascii.
From stdpp Require Import gmap strings list.

Set Warnings "-inexact-float".

Local Open Scope string_scope.
Local Open Scope list_scope.
Local Open Scope Z_scope.

(** ** The JavaScript host *)

Module Js.

(** [isNaN(x)] on a number. *)
Definition isNaN (x : float) : bool := PrimFloat.is_nan x.

(** Truthiness of a number: everything but [0], [-0] and [NaN]. *)
Definition truthy (x : float) : bool :=
  negb (PrimFloat.eqb x 0%float) && negb (isNaN x).

(** [x || 0] on a number. *)
Definition orZero (x : float) : float := if truthy x then x else 0%float.

(** Truthiness of a string: everything but the empty string. *)
Definition nonEmpty (s : string) : bool :=
  match s with EmptyString => false | _ => true end.

(** Truthiness of an optional string field ([undefined] when absent). *)
Definition present (o : option string) : bool :=
  match o with Some s => nonEmpty s | None => false end.

(** A [Date] holds at most 8.64e15 ms on either side of the epoch;
    [toISOString] throws a [RangeError] outside. *)
Definition validTime (ms : Z) : bool := Z.abs ms <=? 8640000000000000.

(** Built-ins whose results the hooks only pass along. *)
Class Host := {
  (** [new Date(ms).toISOString()], for a valid time value. *)
  toISOString : Z -> string;
  (** [parseFloat(s)]. *)
  parseFloat : string -> float;
  (** [x.toFixed(digits)]. *)
  toFixed : float -> nat -> string;
  (** [x.toLocaleString('en-US', { minimumFractionDigits: 2,
      maximumFractionDigits: 2 })]. *)
  toLocaleString : float -> string
}.

(** What a [try] block or a promise ends with. *)
Inductive Outcome (A : Type) : Type :=
| Returned (a : A)
| Thrown.
Arguments Returned {A} a.
Arguments Thrown {A}.

(** [p.catch(() => null)]. *)
Definition catchNull {A : Type} (o : Outcome (option A)) : option A :=
  match o with Returned v => v | Thrown => None end.

End Js.

(** ** [src/hooks/use-crypto-prices.ts] *)

Module CryptoPrices.
Import Js.

(** One value of the [CryptoPrices] dictionary. *)
Record PriceEntry := {
  price : float;
  change24h : float;
  lastUpdated : string
}.

Abbreviation CryptoPrices := (gmap string PriceEntry).

Definition COINGECKO_IDS : list (string * string) :=
  [("BTC", "bitcoin"); ("ETH", "ethereum"); ("USDT", "tether"); ("SOL", "solana")].

Definition COINCAP_IDS : list (string * string) :=
  [("BTC", "bitcoin"); ("ETH", "ethereum"); ("USDT", "tether"); ("SOL", "solana")].

Definition BINANCE_SYMBOLS : list (string * string) :=
  [("BTC", "BTCUSDT"); ("ETH", "ETHUSDT"); ("USDT", "USDTUSDT"); ("SOL", "SOLUSDT")].

(** A value of [FALLBACK_PRICES]. *)
Record Fallback := {
  fallback_price : float;
  fallback_change24h : float
}.

Definition FALLBACK_PRICES : list (string * Fallback) :=
  [("BTC", {| fallback_price := 95000; fallback_change24h := 2.5 |});
   ("ETH", {| fallback_price := 3500; fallback_change24h := 1.8 |});
   ("USDT", {| fallback_price := 1.0; fallback_change24h := 0.01 |});
   ("SOL", {| fallback_price := 150; fallback_change24h := 3.2 |})]%float.

(** [table[key]] on a constant table. *)
Fixpoint lookupKey {A : Type} (key : string) (table : list (string * A)) : option A :=
  match table with
  | [] => None
  | (k, v) :: rest => if String.eqb k key then Some v else lookupKey key rest
  end.

(** [Object.keys(COINGECKO_IDS)]: the known symbols, in source order. *)
Definition knownSymbols : list string := map fst COINGECKO_IDS.

Definition COINGECKO_API_URL := "https://api.coingecko.com/api/v3/simple/price".
Definition COINCAP_API_URL := "https://api.coincap.io/v2/assets".
Definition BINANCE_API_URL := "https://api.binance.com/api/v3/ticker/24hr".

(** *** Circuit breakers *)

Record CircuitBreakerState := {
  failures : nat;
  lastFailureTime : Z;
  isOpen : bool
}.

Abbreviation Breakers := (gmap string CircuitBreakerState).

Definition closedBreaker : CircuitBreakerState :=
  {| failures := 0; lastFailureTime := 0; isOpen := false |}.

(** The module-level [circuitBreakers] map after its initialisation. *)
Definition circuitBreakers0 : Breakers :=
  <["binance" := closedBreaker]>
    (<["coincap" := closedBreaker]> (<["coingecko" := closedBreaker]> ∅)).

Definition CIRCUIT_BREAKER_THRESHOLD : nat := 3.
Definition CIRCUIT_BREAKER_RESET_TIME : Z := 300000.

(** [now] is the reading of [Date.now()] inside the call. *)
Definition checkCircuitBreaker (apiName : string) (now : Z) (cbs : Breakers)
  : bool * Breakers :=
  match cbs !! apiName with
  | None => (true, cbs)
  | Some breaker =>
      if isOpen breaker then
        let timeSinceLastFailure := now - lastFailureTime breaker in
        if CIRCUIT_BREAKER_RESET_TIME <? timeSinceLastFailure then
          (true, <[apiName := {| failures := 0;
                                 lastFailureTime := lastFailureTime breaker;
                                 isOpen := false |}]> cbs)
        else (false, cbs)
      else (true, cbs)
  end.

Definition recordFailure (apiName : string) (now : Z) (cbs : Breakers) : Breakers :=
  match cbs !! apiName with
  | None => cbs
  | Some breaker =>
      let failures' := S (failures breaker) in
      <[apiName := {| failures := failures';
                      lastFailureTime := now;
                      isOpen := if (CIRCUIT_BREAKER_THRESHOLD <=? failures')%nat
                                then true else isOpen breaker |}]> cbs
  end.

Definition recordSuccess (apiName : string) (cbs : Breakers) : Breakers :=
  match cbs !! apiName with
  | None => cbs
  | Some breaker =>
      <[apiName := {| failures := 0;
                      lastFailureTime := lastFailureTime breaker;
                      isOpen := false |}]> cbs
  end.

(** The lines of the 429 branch that follow its [recordFailure]:
    [breaker.lastFailureTime = Date.now(); breaker.isOpen = true]. *)
Definition forceOpen (apiName : string) (now : Z) (cbs : Breakers) : Breakers :=
  match cbs !! apiName with
  | None => cbs
  | Some breaker =>
      <[apiName := {| failures := failures breaker;
                      lastFailureTime := now;
                      isOpen := true |}]> cbs
  end.

(** *** Retry with exponential backoff *)

(** [fn k s] is the [k]-th invocation of the retried function on state [s].
    [remaining] counts the iterations the [for] loop has left; the delays
    waited for are collected in [slept]. *)
Fixpoint retryFrom {St A : Type} (fn : nat -> St -> Outcome A * St)
    (maxRetries : nat) (baseDelay : Z) (remaining : nat) (s : St) (slept : list Z)
  : Outcome A * St * list Z :=
  match remaining with
  | O => (Thrown, s, slept)
  | S remaining' =>
      let attempt := (maxRetries - remaining)%nat in
      match fn attempt s with
      | (Returned a, s') => (Returned a, s', slept)
      | (Thrown, s') =>
          let slept' :=
            if (attempt <? maxRetries - 1)%nat
            then slept ++ [baseDelay * 2 ^ Z.of_nat attempt]
            else slept in
          retryFrom fn maxRetries baseDelay remaining' s' slept'
      end
  end.

Definition retryWithBackoff {St A : Type} (fn : nat -> St -> Outcome A * St)
    (maxRetries : nat) (baseDelay : Z) (s : St) : Outcome A * St * list Z :=
  retryFrom fn maxRetries baseDelay maxRetries s [].

(** *** The network and the shared world *)

(** What [fetch(url)] followed by [response.json()] ends with: a rejection
    (network failure, or the abort at the timeout), or a response with its
    status and its body ([None] when the body is not a JSON object). *)
Inductive Reply (Body : Type) : Type :=
| Rejected
| Response (status : Z) (body : option Body).
Arguments Rejected {Body}.
Arguments Response {Body} status body.

(** [response.ok]. *)
Definition ok (status : Z) : bool := (200 <=? status) && (status <=? 299).

(** One run of a source's fetcher as the environment decides it: the clock
    at the breaker check, the answer of the network, and the clock once the
    answer is handled. *)
Record Exchange (R : Type) := {
  checkedAt : Z;
  reply : R;
  doneAt : Z
}.
Arguments checkedAt {R} _.
Arguments reply {R} _.
Arguments doneAt {R} _.

(** State shared by every caller: the breakers, and the URLs requested so
    far, oldest first. *)
Record World := {
  circuitBreakers : Breakers;
  fetched : list string
}.

(** *** CoinGecko *)

Record CoinGeckoCoin := {
  usd : option float;
  usd_24h_change : option float;
  last_updated_at : option Z
}.

Abbreviation CoinGeckoData := (gmap string CoinGeckoCoin).

Definition coinGeckoUrl : string :=
  COINGECKO_API_URL +:+ "?ids=" +:+ String.concat "," (map snd COINGECKO_IDS)
    +:+ "&vs_currencies=usd&include_24hr_change=true&include_last_updated_at=true".

Section Fetchers.
Context `{Host}.

(** The [lastUpdated] field of a CoinGecko entry. *)
Definition coinGeckoLastUpdated (coinData : CoinGeckoCoin) (now : Z) : Outcome string :=
  match last_updated_at coinData with
  | Some seconds =>
      if seconds =? 0 then Returned (toISOString now)
      else if validTime (seconds * 1000) then Returned (toISOString (seconds * 1000))
      else Thrown
  | None => Returned (toISOString now)
  end.

(** The [forEach] over [Object.entries(COINGECKO_IDS)]. *)
Definition coinGeckoNewPrices (data : CoinGeckoData) (now : Z) : Outcome CryptoPrices :=
  fold_left
    (fun acc '(symbol, coinId) =>
       match acc with
       | Thrown => Thrown
       | Returned newPrices =>
           match data !! coinId with
           | Some coinData =>
               match usd coinData with
               | Some u =>
                   if truthy u then
                     match coinGeckoLastUpdated coinData now with
                     | Returned iso =>
                         Returned
                           (<[symbol := {| price := orZero u;
                                           change24h :=
                                             match usd_24h_change coinData with
                                             | Some c => orZero c
                                             | None => 0%float
                                             end;
                                           lastUpdated := iso |}]> newPrices)
                     | Thrown => Thrown
                     end
                   else acc
               | None => acc
               end
           | None => acc
           end
       end)
    COINGECKO_IDS (Returned ∅).

(** The [try] block of [fetchFromCoinGecko], after [fetch] was called. *)
Definition coinGeckoTry (x : Exchange (Reply CoinGeckoData)) (cbs : Breakers)
  : Outcome CryptoPrices * Breakers :=
  match reply x with
  | Rejected => (Thrown, cbs)
  | Response status body =>
      if negb (ok status) then
        if status =? 429
        then (Thrown, forceOpen "coingecko" (doneAt x)
                        (recordFailure "coingecko" (doneAt x) cbs))
        else (Thrown, cbs)
      else
        match body with
        | None => (Thrown, cbs)
        | Some data =>
            match coinGeckoNewPrices data (doneAt x) with
            | Returned newPrices =>
                if (0 <? size newPrices)%nat
                then (Returned newPrices, recordSuccess "coingecko" cbs)
                else (Thrown, cbs)
            | Thrown => (Thrown, cbs)
            end
        end
  end.

Definition fetchFromCoinGecko (x : Exchange (Reply CoinGeckoData)) (w : World)
  : option CryptoPrices * World :=
  let '(allowed, cbs) :=
    checkCircuitBreaker "coingecko" (checkedAt x) (circuitBreakers w) in
  if negb allowed then
    (None, {| circuitBreakers := cbs; fetched := fetched w |})
  else
    let requested := fetched w ++ [coinGeckoUrl] in
    match coinGeckoTry x cbs with
    | (Returned newPrices, cbs') =>
        (Some newPrices, {| circuitBreakers := cbs'; fetched := requested |})
    | (Thrown, cbs') =>
        (None, {| circuitBreakers := recordFailure "coingecko" (doneAt x) cbs';
                  fetched := requested |})
    end.

(** *** CoinCap *)

Record CoinCapAsset := {
  id : string;
  priceUsd : option string;
  changePercent24Hr : option string
}.

(** The response body: [data] is [None] unless [data.data] is an array. *)
Record CoinCapBody := { data : option (list CoinCapAsset) }.

Definition coinCapUrl : string :=
  COINCAP_API_URL +:+ "?ids=" +:+ String.concat "," (map snd COINCAP_IDS).

(** The properties the [forEach] over [Object.entries(COINCAP_IDS)] writes
    into [symbolMap]: asset id to symbol. *)
Definition symbolMapEntries : gmap string string :=
  fold_left (fun m '(symbol, assetId) => <[assetId := symbol]> m) COINCAP_IDS ∅.

(** The members a plain object inherits from [Object.prototype], each with
    the property key it becomes when it is used as one ([String(member)];
    a built-in function as V8 prints it). *)
Definition OBJECT_PROTOTYPE : list (string * string) :=
  [("constructor", "function Object() { [native code] }");
   ("__defineGetter__", "function __defineGetter__() { [native code] }");
   ("__defineSetter__", "function __defineSetter__() { [native code] }");
   ("hasOwnProperty", "function hasOwnProperty() { [native code] }");
   ("__lookupGetter__", "function __lookupGetter__() { [native code] }");
   ("__lookupSetter__", "function __lookupSetter__() { [native code] }");
   ("isPrototypeOf", "function isPrototypeOf() { [native code] }");
   ("propertyIsEnumerable", "function propertyIsEnumerable() { [native code] }");
   ("toString", "function toString() { [native code] }");
   ("valueOf", "function valueOf() { [native code] }");
   ("__proto__", "[object Object]");
   ("toLocaleString", "function toLocaleString() { [native code] }")].

(** [symbolMap[coin.id]]. The id comes from the network and [symbolMap] is
    a plain object, so the lookup answers with an own property or else
    with an inherited member, which is truthy; the member is kept as the
    key that [newPrices[symbol]] makes of it. *)
Definition symbolMap (assetId : string) : option string :=
  match symbolMapEntries !! assetId with
  | Some symbol => Some symbol
  | None => lookupKey assetId OBJECT_PROTOTYPE
  end.

(** [parseFloat(field) || 0], where an absent field parses to [NaN]. *)
Definition parseOrZero (field : option string) : float :=
  match field with
  | Some text => orZero (parseFloat text)
  | None => 0%float
  end.

(** The [forEach] over [data.data]. *)
Definition coinCapNewPrices (assets : list CoinCapAsset) (now : Z) : CryptoPrices :=
  fold_left
    (fun newPrices coin =>
       match symbolMap (id coin) with
       | Some symbol =>
           if nonEmpty symbol && present (priceUsd coin) then
             <[symbol := {| price := parseOrZero (priceUsd coin);
                            change24h := parseOrZero (changePercent24Hr coin);
                            lastUpdated := toISOString now |}]> newPrices
           else newPrices
       | None => newPrices
       end)
    assets ∅.

Definition coinCapTry (x : Exchange (Reply CoinCapBody)) (cbs : Breakers)
  : Outcome CryptoPrices * Breakers :=
  match reply x with
  | Rejected => (Thrown, cbs)
  | Response status body =>
      if negb (ok status) then (Thrown, cbs)
      else
        match body with
        | None => (Thrown, cbs)
        | Some json =>
            let newPrices :=
              match data json with
              | Some assets => coinCapNewPrices assets (doneAt x)
              | None => ∅
              end in
            if (0 <? size newPrices)%nat
            then (Returned newPrices, recordSuccess "coincap" cbs)
            else (Thrown, cbs)
        end
  end.

Definition fetchFromCoinCap (x : Exchange (Reply CoinCapBody)) (w : World)
  : option CryptoPrices * World :=
  let '(allowed, cbs) :=
    checkCircuitBreaker "coincap" (checkedAt x) (circuitBreakers w) in
  if negb allowed then
    (None, {| circuitBreakers := cbs; fetched := fetched w |})
  else
    let requested := fetched w ++ [coinCapUrl] in
    match coinCapTry x cbs with
    | (Returned newPrices, cbs') =>
        (Some newPrices, {| circuitBreakers := cbs'; fetched := requested |})
    | (Thrown, cbs') =>
        (None, {| circuitBreakers := recordFailure "coincap" (doneAt x) cbs';
                  fetched := requested |})
    end.

(** *** Binance *)

Record Ticker := {
  lastPrice : option string;
  prevClosePrice : option string
}.

Definition binanceUrl (binanceSymbol : string) : string :=
  BINANCE_API_URL +:+ "?symbol=" +:+ binanceSymbol.

(** The URLs the per-symbol promises request: none for USDT. *)
Definition binanceUrls : list string :=
  flat_map (fun '(symbol, binanceSymbol) =>
              if String.eqb symbol "USDT" then [] else [binanceUrl binanceSymbol])
           BINANCE_SYMBOLS.

(** The value one per-symbol promise is fulfilled with:
    [{ symbol, price, change24h }] or [null]. *)
Definition binanceSymbolPromise (replies : string -> Reply Ticker)
    (entry : string * string) : option (string * float * float) :=
  let '(symbol, binanceSymbol) := entry in
  if String.eqb symbol "USDT" then Some (symbol, 1.0%float, 0.01%float)
  else
    match replies binanceSymbol with
    | Rejected => None
    | Response status body =>
        if negb (ok status) then None
        else
          match body with
          | None => None
          | Some ticker =>
              match lastPrice ticker with
              | Some lastText =>
                  if nonEmpty lastText then
                    let price := parseFloat lastText in
                    let prevPrice :=
                      parseFloat (match prevClosePrice ticker with
                                  | Some prevText =>
                                      if nonEmpty prevText then prevText else lastText
                                  | None => lastText
                                  end) in
                    let change :=
                      if PrimFloat.ltb 0 prevPrice
                      then ((price - prevPrice) / prevPrice * 100)%float
                      else 0%float in
                    Some (symbol, orZero price, orZero change)
                  else None
              | None => None
              end
          end
    end.

(** The [forEach] over the settled per-symbol results. *)
Definition binanceNewPrices (results : list (option (string * float * float))) (now : Z)
  : CryptoPrices :=
  fold_left
    (fun newPrices result =>
       match result with
       | Some (symbol, price, change) =>
           if PrimFloat.ltb 0 price then
             <[symbol := {| price := price; change24h := change;
                            lastUpdated := toISOString now |}]> newPrices
           else newPrices
       | None => newPrices
       end)
    results ∅.

Definition binanceTry (x : Exchange (string -> Reply Ticker)) (cbs : Breakers)
  : Outcome CryptoPrices * Breakers :=
  let results := map (binanceSymbolPromise (reply x)) BINANCE_SYMBOLS in
  let newPrices := binanceNewPrices results (doneAt x) in
  if (0 <? size newPrices)%nat
  then (Returned newPrices, recordSuccess "binance" cbs)
  else (Thrown, cbs).

Definition fetchFromBinance (x : Exchange (string -> Reply Ticker)) (w : World)
  : option CryptoPrices * World :=
  let '(allowed, cbs) :=
    checkCircuitBreaker "binance" (checkedAt x) (circuitBreakers w) in
  if negb allowed then
    (None, {| circuitBreakers := cbs; fetched := fetched w |})
  else
    let requested := fetched w ++ binanceUrls in
    match binanceTry x cbs with
    | (Returned newPrices, cbs') =>
        (Some newPrices, {| circuitBreakers := cbs'; fetched := requested |})
    | (Thrown, cbs') =>
        (None, {| circuitBreakers := recordFailure "binance" (doneAt x) cbs';
                  fetched := requested |})
    end.

End Fetchers.

(** *** Merging *)

(** The inner [for ... of priceSources] loop of [mergePrices] with its
    [break]: the entry of the first source that has one with a positive
    price. *)
Fixpoint firstAvailable (symbol : string) (priceSources : list (option CryptoPrices))
  : option PriceEntry :=
  match priceSources with
  | [] => None
  | prices :: rest =>
      match prices with
      | Some table =>
          match table !! symbol with
          | Some entry =>
              if PrimFloat.ltb 0 (price entry) then Some entry
              else firstAvailable symbol rest
          | None => firstAvailable symbol rest
          end
      | None => firstAvailable symbol rest
      end
  end.

Definition mergePrices (priceSources : list (option CryptoPrices)) : CryptoPrices :=
  fold_left
    (fun merged symbol =>
       match firstAvailable symbol priceSources with
       | Some entry => <[symbol := entry]> merged
       | None => merged
       end)
    knownSymbols ∅.

(** *** The hook *)

(** React state ([prices], [loading], [error]) and refs ([lastFetchTime],
    [isFetching]) of one [useCryptoPrices] instance. *)
Record HookState := {
  prices : CryptoPrices;
  loading : bool;
  error : option string;
  lastFetchTime : Z;
  isFetching : bool
}.

Definition setPrices (v : CryptoPrices) (st : HookState) : HookState :=
  {| prices := v; loading := loading st; error := error st;
     lastFetchTime := lastFetchTime st; isFetching := isFetching st |}.

Definition setLoading (v : bool) (st : HookState) : HookState :=
  {| prices := prices st; loading := v; error := error st;
     lastFetchTime := lastFetchTime st; isFetching := isFetching st |}.

Definition setError (v : option string) (st : HookState) : HookState :=
  {| prices := prices st; loading := loading st; error := v;
     lastFetchTime := lastFetchTime st; isFetching := isFetching st |}.

Definition setLastFetchTime (v : Z) (st : HookState) : HookState :=
  {| prices := prices st; loading := loading st; error := error st;
     lastFetchTime := v; isFetching := isFetching st |}.

Definition setIsFetching (v : bool) (st : HookState) : HookState :=
  {| prices := prices st; loading := loading st; error := error st;
     lastFetchTime := lastFetchTime st; isFetching := v |}.

Definition CACHE_DURATION : Z := 30000.

(** What the network answers to each source, by invocation number within
    one [fetchPrices] call. *)
Record Network := {
  coingeckoNet : nat -> Exchange (Reply CoinGeckoData);
  coincapNet : nat -> Exchange (Reply CoinCapBody);
  binanceNet : nat -> Exchange (string -> Reply Ticker)
}.

(** The value of the three settled promises, in the order of the array
    handed to [Promise.allSettled]. *)
Record Settled := {
  coingeckoPrices : option CryptoPrices;
  coincapPrices : option CryptoPrices;
  binancePrices : option CryptoPrices
}.

Section Hook.
Context `{Host}.

(** [retryWithBackoff(() => fetchFromX(), 2, 1000).catch(() => null)]:
    an [async] fetcher that returned is a fulfilled promise. *)
Definition settle (fetcher : nat -> World -> option CryptoPrices * World) (w : World)
  : option CryptoPrices * World :=
  let '(outcome, w', _) :=
    retryWithBackoff
      (fun attempt w0 => let '(v, w1) := fetcher attempt w0 in (Returned v, w1))
      2 1000 w in
  (catchNull outcome, w').

(** The [Promise.allSettled] round. The three chains touch disjoint
    breakers, so running them one after the other yields the values and
    the breakers of any interleaving. *)
Definition fetchSources (net : Network) (w : World) : Settled * World :=
  let '(cg, w1) := settle (fun k => fetchFromCoinGecko (coingeckoNet net k)) w in
  let '(cc, w2) := settle (fun k => fetchFromCoinCap (coincapNet net k)) w1 in
  let '(bn, w3) := settle (fun k => fetchFromBinance (binanceNet net k)) w2 in
  ({| coingeckoPrices := cg; coincapPrices := cc; binancePrices := bn |}, w3).

(** [priceSources] after the three [push]es: the non-null values, in the
    order CoinGecko, CoinCap, Binance. *)
Definition collectSources (r : Settled) : list (option CryptoPrices) :=
  match coingeckoPrices r with Some v => [Some v] | None => [] end
  ++ match coincapPrices r with Some v => [Some v] | None => [] end
  ++ match binancePrices r with Some v => [Some v] | None => [] end.

(** The entry written for a symbol taken from [FALLBACK_PRICES]. *)
Definition fallbackEntry (fallback : Fallback) (now : Z) : PriceEntry :=
  {| price := fallback_price fallback;
     change24h := fallback_change24h fallback;
     lastUpdated := toISOString now |}.

(** [finalPrices]: the copy of [mergedPrices] after the fill loop. *)
Definition fillFallback (now : Z) (mergedPrices : CryptoPrices) : CryptoPrices :=
  fold_left
    (fun finalPrices '(symbol, _) =>
       let missing :=
         match finalPrices !! symbol with
         | None => true
         | Some entry => PrimFloat.eqb (price entry) 0%float
         end in
       if missing then
         match lookupKey symbol FALLBACK_PRICES with
         | Some fallback => <[symbol := fallbackEntry fallback now]> finalPrices
         | None => finalPrices
         end
       else finalPrices)
    COINGECKO_IDS mergedPrices.

(** The advisory chosen after [setPrices]. *)
Definition advisory (mergedPrices : CryptoPrices) : option string :=
  if (size mergedPrices =? 0)%nat then
    Some "All APIs failed, using fallback prices"
  else if (size mergedPrices <? length COINGECKO_IDS)%nat then
    Some "Some prices unavailable, using fallback for missing tokens"
  else None.

(** [fetchPrices]. [seen] is the [prices] binding the closure was created
    with; [now] is the clock at the guard and [filledAt] the clock at the
    fill loop. Nothing in the [try] block can throw (every promise is
    awaited through [allSettled]), so its [catch] is not entered. *)
Definition fetchPrices (seen : CryptoPrices) (now filledAt : Z) (net : Network)
    (st : HookState) (w : World) : HookState * World :=
  if isFetching st then (st, w)
  else if (now - lastFetchTime st <? CACHE_DURATION) && (0 <? size seen)%nat
  then (st, w)
  else
    let st1 := setIsFetching true st in
    let st2 := setError None st1 in
    let st3 := if (size seen =? 0)%nat then setLoading true st2 else st2 in
    let '(settled, w') := fetchSources net w in
    let mergedPrices := mergePrices (collectSources settled) in
    let finalPrices := fillFallback filledAt mergedPrices in
    let st4 := setPrices finalPrices st3 in
    let st5 := setLastFetchTime now st4 in
    let st6 := setError (advisory mergedPrices) st5 in
    (setIsFetching false (setLoading false st6), w').

(** The table built by the [catch] branch of [fetchPrices] and by the
    mount effect: every known symbol from [FALLBACK_PRICES]. *)
Definition fallbackPrices (now : Z) : CryptoPrices :=
  fold_left
    (fun table '(symbol, _) =>
       match lookupKey symbol FALLBACK_PRICES with
       | Some fallback => <[symbol := fallbackEntry fallback now]> table
       | None => table
       end)
    COINGECKO_IDS ∅.

Definition getPrice (table : CryptoPrices) (symbol : string) : option float :=
  if negb (nonEmpty symbol) then None
  else
    match table !! symbol with
    | None => None
    | Some entry =>
        let price := price entry in
        if PrimFloat.eqb price 0%float || isNaN price then None else Some price
    end.



End Hook.

End CryptoPrices.

(** ** The balance hook [useBalance] *)

Module BalanceHook.
Import Js.

(** Modelled from the spec: the row type of the [balances] table, whose
    declaration ([@/lib/supabase/types]) is not among the sources. The hook
    reads [token] and [balance]; the query filters on [user_id]. *)
Record Balance := {
  user_id : string;
  token : string;
  balance : float;
  updated_at : string
}.

(** The part of the session user the hook reads. *)
Record User := { id : string }.

Definition ZENTRA_PRICE : float := 0.5%float.

(** React state ([balances], [loading]) and the ref [userIdRef]. *)
Record HookState := {
  balances : list Balance;
  loading : bool;
  userIdRef : option string
}.

Definition setBalances (v : list Balance) (st : HookState) : HookState :=
  {| balances := v; loading := loading st; userIdRef := userIdRef st |}.

Definition setLoading (v : bool) (st : HookState) : HookState :=
  {| balances := balances st; loading := v; userIdRef := userIdRef st |}.

Definition setUserIdRef (v : option string) (st : HookState) : HookState :=
  {| balances := balances st; loading := loading st; userIdRef := v |}.

(** *** [loadBalances] *)

(** What the awaited query ends with: [{ data, error }] with [error] set,
    [{ data, error: null }] (with [data] possibly [null]), or an exception. *)
Inductive QueryResult : Type :=
| QueryError (code message : string)
| QueryData (data : option (list Balance))
| QueryThrew.

Definition MAX_RETRIES : nat := 3.
Definition RETRY_DELAYS : list Z := [1000; 2000; 3000].

(** [RETRY_DELAYS[retryCount] || 3000]. *)
Definition retryDelay (retryCount : nat) : Z :=
  match RETRY_DELAYS !! retryCount with
  | Some delay => if delay =? 0 then 3000 else delay
  | None => 3000
  end.

(** The [finally] block. *)
Definition loadFinally (showLoading : bool) (retryCount : nat) (st : HookState)
  : HookState :=
  if showLoading || (retryCount =? 0)%nat then setLoading false st else st.

(** One invocation of [loadBalances], given what its query ends with. The
    second component is the retry it leaves with [setTimeout], if any: the
    delay and the next [retryCount]. *)
Definition loadBalancesOnce (user : option User) (showLoading : bool)
    (retryCount : nat) (result : QueryResult) (st : HookState)
  : HookState * option (Z * nat) :=
  match user with
  | None => (st, None)
  | Some _ =>
      let st1 :=
        if showLoading && (retryCount =? 0)%nat then setLoading true st else st in
      match result with
      | QueryError _ _ =>
          if (retryCount <? MAX_RETRIES)%nat then
            (loadFinally showLoading retryCount st1,
             Some (retryDelay retryCount, S retryCount))
          else
            (loadFinally showLoading retryCount (setLoading false st1), None)
      | QueryData data =>
          let st2 :=
            match data with
            | Some rows => setBalances rows st1
            | None => st1
            end in
          (loadFinally showLoading retryCount st2, None)
      | QueryThrew =>
          if (retryCount <? MAX_RETRIES)%nat then
            (loadFinally showLoading retryCount st1,
             Some (retryDelay retryCount, S retryCount))
          else
            (loadFinally showLoading retryCount st1, None)
      end
  end.

(** A call with the retries it sets off, run to the end. [results k] is
    what the query of the invocation with [retryCount = k] ends with;
    [waited] collects the delays. [None] means [fuel] ran out. *)
Fixpoint loadBalancesFrom (fuel : nat) (user : option User) (showLoading : bool)
    (retryCount : nat) (results : nat -> QueryResult) (st : HookState)
    (waited : list Z) : option (HookState * list Z) :=
  match fuel with
  | O => None
  | S fuel' =>
      match loadBalancesOnce user showLoading retryCount (results retryCount) st with
      | (st', Some (delay, retryCount')) =>
          loadBalancesFrom fuel' user showLoading retryCount' results st'
            (waited ++ [delay])
      | (st', None) => Some (st', waited)
      end
  end.

Definition loadBalances (user : option User) (showLoading : bool) (retryCount : nat)
    (results : nat -> QueryResult) (st : HookState) : option (HookState * list Z) :=
  loadBalancesFrom (S (MAX_RETRIES - retryCount)) user showLoading retryCount
    results st [].

(** *** The session effect *)

(** The effect on [user] up to its call of [loadBalances()]. The boolean
    tells whether that call and the subscription follow. *)
Definition useBalanceEffect (user : option User) (st : HookState) : HookState * bool :=
  match user with
  | None =>
      match userIdRef st with
      | Some _ => (setUserIdRef None (setLoading false (setBalances [] st)), false)
      | None => (st, false)
      end
  | Some u =>
      let isSameUser := bool_decide (userIdRef st = Some (id u)) in
      let st1 := setUserIdRef (Some (id u)) st in
      let st2 := if negb isSameUser then setLoading true st1 else st1 in
      (st2, true)
  end.

(** *** The subscription and its polling fallback *)

Inductive ChannelStatus : Type :=
| SUBSCRIBED
| CHANNEL_ERROR
| TIMED_OUT
| CLOSED.

(** What an interval runs at every tick. *)
Inductive TimerAction : Type :=
| LoadBalances (showLoading : bool).

Record Interval := {
  period : Z;
  action : TimerAction
}.

(** The browser's active intervals by handle. Handles are positive, hence
    truthy. *)
Record Timers := {
  active : gmap positive Interval;
  nextHandle : positive
}.

Definition setInterval (run : TimerAction) (ms : Z) (timers : Timers)
  : positive * Timers :=
  (nextHandle timers,
   {| active := <[nextHandle timers := {| period := ms; action := run |}]> (active timers);
      nextHandle := Pos.succ (nextHandle timers) |}).

Definition clearInterval (handle : positive) (timers : Timers) : Timers :=
  {| active := delete handle (active timers); nextHandle := nextHandle timers |}.

(** The variables local to one run of the effect. *)
Record EffectLocals := {
  pollInterval : option positive;
  isCleaningUp : bool
}.

(** [if (!pollInterval && !isCleaningUp) pollInterval = setInterval(...)]. *)
Definition startPolling (loc : EffectLocals) (timers : Timers) : EffectLocals * Timers :=
  match pollInterval loc with
  | None =>
      if negb (isCleaningUp loc) then
        let '(handle, timers') := setInterval (LoadBalances false) 30000 timers in
        ({| pollInterval := Some handle; isCleaningUp := isCleaningUp loc |}, timers')
      else (loc, timers)
  | Some _ => (loc, timers)
  end.

(** The callback handed to [subscribe]. *)
Definition onSubscriptionStatus (status : ChannelStatus) (loc : EffectLocals)
    (timers : Timers) : EffectLocals * Timers :=
  if isCleaningUp loc then (loc, timers)
  else
    match status with
    | SUBSCRIBED =>
        match pollInterval loc with
        | Some handle =>
            ({| pollInterval := None; isCleaningUp := isCleaningUp loc |},
             clearInterval handle timers)
        | None => (loc, timers)
        end
    | CHANNEL_ERROR | TIMED_OUT => startPolling loc timers
    | CLOSED => startPolling loc timers
    end.

(** [setupRealtimeSubscription]: [threw] tells whether building the channel
    threw, which the [catch] answers with the polling fallback. *)
Definition setupRealtimeSubscription (threw : bool) (loc : EffectLocals)
    (timers : Timers) : EffectLocals * Timers :=
  if threw then startPolling loc timers else (loc, timers).

(** The cleanup returned by the effect. *)
Definition cleanup (loc : EffectLocals) (timers : Timers) : EffectLocals * Timers :=
  let loc1 := {| pollInterval := pollInterval loc; isCleaningUp := true |} in
  match pollInterval loc1 with
  | Some handle =>
      ({| pollInterval := None; isCleaningUp := true |}, clearInterval handle timers)
  | None => (loc1, timers)
  end.

(** *** Derived accessors *)

Definition getBalance (st : HookState) (name : string) : float :=
  match find (fun b => String.eqb (token b) name) (balances st) with
  | Some b => orZero (balance b)
  | None => 0%float
  end.

Definition getTotalPortfolioValue (st : HookState) : float :=
  fold_left
    (fun total b =>
       if String.eqb (token b) "ZENTRA"
       then (total + balance b * ZENTRA_PRICE)%float
       else total)
    (balances st) 0%float.

Definition getZentraBalance (st : HookState) : float := getBalance st "ZENTRA".

Definition getZentraValue (st : HookState) : float :=
  (getZentraBalance st * ZENTRA_PRICE)%float.

End BalanceHook.

(** ** The rest of the two hooks *)

(** The remaining accessors of [useCryptoPrices] and its mount effect. *)

Module PriceHookRest.
Import Js CryptoPrices.


Section Formatting.
Context `{Host}.



(** The part of [fetchPrices] that runs before its first [await]: the two
    guards, then [isFetching.current = true], [setError(null)] and, for an
    empty [prices] binding, [setLoading(true)]. [None] when a guard
    returned. *)
Definition fetchPricesStart (seen : CryptoPrices) (now : Z) (st : HookState)
  : option HookState :=
  if isFetching st then None
  else if (now - lastFetchTime st <? CACHE_DURATION) && (0 <? size seen)%nat
  then None
  else
    let st1 := setIsFetching true st in
    let st2 := setError None st1 in
    Some (if (size seen =? 0)%nat then setLoading true st2 else st2).

(** The first two statements of the mount effect after [initialPrices] is
    built at clock [builtAt]: [setPrices(initialPrices)] and
    [setLoading(false)]. *)
Definition installInitialPrices (builtAt : Z) (st : HookState) : HookState :=
  setLoading false (setPrices (fallbackPrices builtAt) st).

(** [fetchInBackground], as the mount effect and its interval call it.
    The effect has no dependencies, so the [fetchPrices] it calls is the
    one of the first render, whose [prices] is the initial [{}]; an error
    escaping [fetchPrices] would be swallowed, and none can. *)
Definition fetchInBackground (now filledAt : Z) (net : Network)
    (st : HookState) (w : World) : HookState * World :=
  fetchPrices ∅ now filledAt net st w.

(** The synchronous run of the mount effect: the initial table is
    installed and [loading] lowered, then [fetchInBackground()] runs
    [fetchPrices] up to its first [await]; [now] is the clock read at the
    cache guard. The state setters of one run are applied in order. *)
Definition mountEffect (builtAt now : Z) (st : HookState) : HookState :=
  let st1 := installInitialPrices builtAt st in
  match fetchPricesStart ∅ now st1 with
  | Some st2 => st2
  | None => st1
  end.

(** The mount effect once the background fetch it started has ended. *)
Definition mountAndFetch (builtAt now filledAt : Z) (net : Network)
    (st : HookState) (w : World) : HookState * World :=
  fetchInBackground now filledAt net (installInitialPrices builtAt st) w.

End Formatting.

(** The period of the refresh interval set by the mount effect. *)
Definition REFRESH_INTERVAL : Z := 120000.

End PriceHookRest.

(** The remaining entry points of [useBalance]. *)

Module BalanceHookRest.
Import Js BalanceHook.

(** The listener of the [balance-updated] event, and the callback of the
    change feed: [loadBalances(false)]. *)
Definition handleBalanceUpdate (user : option User) (results : nat -> QueryResult)
    (st : HookState) : option (HookState * list Z) :=
  loadBalances user false 0 results st.

Definition reloadBalances (user : option User) (results : nat -> QueryResult)
    (st : HookState) : option (HookState * list Z) :=
  loadBalances user false 0 results st.

End BalanceHookRest.

(** * Notions used in the statements *)

(** ** For the price hook *)

Module PriceNotions.
Import Js CryptoPrices.

(** The entry a settled source holds for a symbol, if any. *)
Definition entryOf (source : option CryptoPrices) (symbol : string)
  : option PriceEntry :=
  match source with
  | Some table => table !! symbol
  | None => None
  end.

(** Whether a settled source holds a positive price for a symbol. *)
Definition supplies (source : option CryptoPrices) (symbol : string) : bool :=
  match entryOf source symbol with
  | Some entry => PrimFloat.ltb 0 (price entry)
  | None => false
  end.

Section Notions.
Context `{Host}.

(** What the fill loop leaves for a symbol, from the entry it found. *)
Definition filled (now : Z) (symbol : string) (found : option PriceEntry)
  : option PriceEntry :=
  match found with
  | Some entry =>
      if PrimFloat.eqb (price entry) 0%float then
        match lookupKey symbol FALLBACK_PRICES with
        | Some fallback => Some (fallbackEntry fallback now)
        | None => Some entry
        end
      else Some entry
  | None => (fun fallback => fallbackEntry fallback now) <$> lookupKey symbol FALLBACK_PRICES
  end.

(** Whether a call gets past both guards. *)
Definition refreshes (seen : CryptoPrices) (now : Z) (st : HookState) : bool :=
  negb (isFetching st)
  && negb ((now - lastFetchTime st <? CACHE_DURATION) && (0 <? size seen)%nat).

(** One fetch attempt on one of the three sources. *)
Inductive Attempt : Type :=
| OnCoinGecko (x : Exchange (Reply CoinGeckoData))
| OnCoinCap (x : Exchange (Reply CoinCapBody))
| OnBinance (x : Exchange (string -> Reply Ticker)).

(** The name of the attempt's breaker. *)
Definition attemptSource (a : Attempt) : string :=
  match a with
  | OnCoinGecko _ => "coingecko"
  | OnCoinCap _ => "coincap"
  | OnBinance _ => "binance"
  end.

(** The clock at the attempt's breaker check. *)
Definition attemptTime (a : Attempt) : Z :=
  match a with
  | OnCoinGecko x => checkedAt x
  | OnCoinCap x => checkedAt x
  | OnBinance x => checkedAt x
  end.

(** The clock once the attempt's answer is handled. *)
Definition attemptDone (a : Attempt) : Z :=
  match a with
  | OnCoinGecko x => doneAt x
  | OnCoinCap x => doneAt x
  | OnBinance x => doneAt x
  end.

(** The attempt run on a world. *)
Definition runAttempt (a : Attempt) (w : World) : option CryptoPrices * World :=
  match a with
  | OnCoinGecko x => fetchFromCoinGecko x w
  | OnCoinCap x => fetchFromCoinCap x w
  | OnBinance x => fetchFromBinance x w
  end.

(** Attempts one after the other; the values they return, in order. *)
Fixpoint runAttempts (attempts : list Attempt) (w : World)
  : list (option CryptoPrices) * World :=
  match attempts with
  | [] => ([], w)
  | a :: rest =>
      let '(v, w1) := runAttempt a w in
      let '(vs, w2) := runAttempts rest w1 in
      (v :: vs, w2)
  end.

End Notions.

(** A host for closed examples: every date prints as the epoch, text
    parses to [NaN], and numbers print as a fixed text. *)
Definition exampleHost : Host := {|
  toISOString := fun _ => "1970-01-01T00:00:00.000Z";
  parseFloat := fun _ => PrimFloat.nan;
  toFixed := fun _ _ => "0.00";
  toLocaleString := fun _ => "0.00"
|}.

(** A network on which every request is rejected. *)
Definition deadNetwork : Network :=
  {| coingeckoNet := fun _ => {| checkedAt := 1700000000000; reply := Rejected;
                                 doneAt := 1700000000900 |};
     coincapNet := fun _ => {| checkedAt := 1700000000000; reply := Rejected;
                               doneAt := 1700000000900 |};
     binanceNet := fun _ => {| checkedAt := 1700000000000; reply := fun _ => Rejected;
                               doneAt := 1700000000900 |} |}.

(** The hook at its first render, and the world at module load. *)
Definition mountedHook : HookState :=
  {| prices := ∅; loading := true; error := None; lastFetchTime := 0;
     isFetching := false |}.

Definition freshWorld : World :=
  {| circuitBreakers := circuitBreakers0; fetched := [] |}.

End PriceNotions.

(** ** For the balance hook *)

Module BalanceNotions.
Import Js BalanceHook.

(** Whether a query ended in failure: an error, or an exception. *)
Definition failed (result : QueryResult) : bool :=
  match result with
  | QueryError _ _ | QueryThrew => true
  | QueryData _ => false
  end.

(** The interval the fallback starts. *)
Definition pollEvery30s : Interval :=
  {| period := 30000; action := LoadBalances false |}.

(** The handle the effect holds, if any, is that of a running 30 s poll. *)
Definition pollingConsistent (loc : EffectLocals) (timers : Timers) : Prop :=
  forall handle, pollInterval loc = Some handle ->
                 active timers !! handle = Some pollEvery30s.

(** The price the spec gives a token: the fixed constant for ZENTRA, else
    the aggregator's quote, if it has one. *)
Definition specPrice (quote : string -> option float) (name : string) : option float :=
  if String.eqb name "ZENTRA" then Some ZENTRA_PRICE else quote name.

(** The total as the spec words it: the sum over the priced tokens of
    amount times price, unpriced tokens adding nothing. *)
Definition specTotalValue (quote : string -> option float) (st : HookState) : float :=
  fold_left
    (fun total b =>
       match specPrice quote (token b) with
       | Some p => (total + balance b * p)%float
       | None => total
       end)
    (balances st) 0%float.

Definition userA : User := {| id := "user-a" |}.
Definition userB : User := {| id := "user-b" |}.

Definition zentraRow : Balance :=
  {| user_id := "user-a"; token := "ZENTRA"; balance := 1200;
     updated_at := "2025-01-01T00:00:00.000Z" |}.

(** A session of [userA] holding one row. *)
Definition holding : HookState :=
  {| balances := [zentraRow]; loading := false; userIdRef := Some "user-a" |}.

(** The browser's timers with nothing running. *)
Definition noTimers : Timers := {| active := ∅; nextHandle := 1 |}.

End BalanceNotions.

(** ** For the further properties *)

Module MoreNotions.
Import Js CryptoPrices BalanceHook.

(** The state after the invocations [0 .. count - 1] of a retried
    function, each run on the state the one before left. *)
Fixpoint invoked {St A : Type} (fn : nat -> St -> Outcome A * St) (count : nat) (s : St)
  : St :=
  match count with
  | O => s
  | S k => snd (fn k (invoked fn k s))
  end.

(** What the [k]-th invocation ends with in that run. *)
Definition outcomeAt {St A : Type} (fn : nat -> St -> Outcome A * St) (k : nat) (s : St)
  : Outcome A :=
  fst (fn k (invoked fn k s)).

(** The wait before the retry that follows attempt [k]. *)
Definition backoff (baseDelay : Z) (k : nat) : Z := baseDelay * 2 ^ Z.of_nat k.

(** Whether any of the three settled sources holds a positive price for a
    symbol. *)
Definition supplied (r : Settled) (symbol : string) : bool :=
  PriceNotions.supplies (coingeckoPrices r) symbol
  || PriceNotions.supplies (coincapPrices r) symbol
  || PriceNotions.supplies (binancePrices r) symbol.

(** Failures recorded for a source one after the other, at the given
    clocks. *)
Definition recordFailures (apiName : string) (times : list Z)
    (cbs : gmap string CircuitBreakerState) : gmap string CircuitBreakerState :=
  fold_left (fun acc time => recordFailure apiName time acc) times cbs.

(** Status callbacks delivered one after the other. *)
Fixpoint runStatuses (statuses : list ChannelStatus) (loc : EffectLocals)
    (timers : Timers) : EffectLocals * Timers :=
  match statuses with
  | [] => (loc, timers)
  | status :: rest =>
      let '(loc1, timers1) := onSubscriptionStatus status loc timers in
      runStatuses rest loc1 timers1
  end.

(** The timers are those of [others] and, when the effect holds a handle,
    its 30-second poll besides; every handle in use is below the next one
    to be handed out. *)
Definition onePollAtMost (others : gmap positive Interval) (loc : EffectLocals)
    (timers : Timers) : Prop :=
  (forall handle, is_Some (active timers !! handle) ->
                  (handle < nextHandle timers)%positive)
  /\ match pollInterval loc with
     | None => active timers = others
     | Some handle =>
         others !! handle = None
         /\ active timers
            = <[handle := {| period := 30000; action := LoadBalances false |}]> others
     end.

(** A price hook whose last fetch began at clock 1700000000000 and left
    the full fallback table. *)
Definition justFetched : CryptoPrices.HookState :=
  {| prices := @fallbackPrices PriceNotions.exampleHost 1700000000950;
     CryptoPrices.loading := false; error := None;
     lastFetchTime := 1700000000000; isFetching := false |}.

End MoreNotions.

(** ** For whole rounds on a concrete network *)

Module RoundNotions.
Import Js CryptoPrices.

(** *** A host that computes *)

(** The decimal digit of the units of [n]. *)
Definition digit (n : Z) : string :=
  String (ascii_of_nat (48 + Z.to_nat (n mod 10))) "".

(** [n] in decimal on [width] digits, zero-padded. *)
Fixpoint padded (width : nat) (n : Z) : string :=
  match width with
  | O => ""
  | S w => padded w (n / 10) +:+ digit n
  end.

(** Year, month and day of the proleptic Gregorian calendar, from the
    number of days since 1970-01-01. *)
Definition civilFromDays (days : Z) : Z * Z * Z :=
  let z := days + 719468 in
  let era := z / 146097 in
  let doe := z - era * 146097 in
  let yoe := (doe - doe / 1460 + doe / 36524 - doe / 146096) / 365 in
  let doy := doe - (365 * yoe + yoe / 4 - yoe / 100) in
  let mp := (5 * doy + 2) / 153 in
  let d := doy - (153 * mp + 2) / 5 + 1 in
  let m := if mp <? 10 then mp + 3 else mp - 9 in
  let y := yoe + era * 400 + (if m <=? 2 then 1 else 0) in
  (y, m, d).

(** [new Date(ms).toISOString()] for a time value of the years 0 to 9999:
    [YYYY-MM-DDTHH:mm:ss.sssZ]. *)
Definition isoString (ms : Z) : string :=
  let '(y, m, d) := civilFromDays (ms / 86400000) in
  let t := ms mod 86400000 in
  padded 4 y +:+ "-" +:+ padded 2 m +:+ "-" +:+ padded 2 d +:+ "T"
  +:+ padded 2 (t / 3600000) +:+ ":" +:+ padded 2 (t / 60000 mod 60) +:+ ":"
  +:+ padded 2 (t / 1000 mod 60) +:+ "." +:+ padded 3 (t mod 1000) +:+ "Z".

Definition digitValue (c : ascii) : option float :=
  match c with
  | "0"%char => Some 0%float
  | "1"%char => Some 1%float
  | "2"%char => Some 2%float
  | "3"%char => Some 3%float
  | "4"%char => Some 4%float
  | "5"%char => Some 5%float
  | "6"%char => Some 6%float
  | "7"%char => Some 7%float
  | "8"%char => Some 8%float
  | "9"%char => Some 9%float
  | _ => None
  end.

(** The value of a run of decimal digits, read left to right. *)
Fixpoint decimalValue (text : string) (acc : float) : option float :=
  match text with
  | EmptyString => Some acc
  | String c rest =>
      match digitValue c with
      | Some d => decimalValue rest (acc * 10 + d)%float
      | None => None
      end
  end.

(** [parseFloat(text)] for a text made of decimal digits only (exact below
    2^53); other text is given [NaN]. *)
Definition parseDecimal (text : string) : float :=
  match text with
  | EmptyString => PrimFloat.nan
  | _ => match decimalValue text 0%float with
         | Some value => value
         | None => PrimFloat.nan
         end
  end.

(** A host for closed rounds: dates print and digit strings parse as the
    built-ins have it; numbers print as a fixed text. *)
Definition roundHost : Host := {|
  toISOString := isoString;
  parseFloat := parseDecimal;
  toFixed := fun _ _ => "0.00";
  toLocaleString := fun _ => "0.00"
|}.

(** *** Networks *)



(** A CoinCap answer whose only asset carries the id of an inherited
    member of [symbolMap]. *)
Definition inheritedIdAnswer : Exchange (Reply CoinCapBody) :=
  {| checkedAt := 1700000000000;
     reply := Response 200
                (Some {| data := Some [ {| id := "constructor";
                                           priceUsd := Some "1";
                                           changePercent24Hr := None |} ] |});
     doneAt := 1700000000600 |}.

End RoundNotions.

(** * Properties of the price hook *)

Module PriceProofs.
Import Js CryptoPrices PriceNotions.

(** ** Numbers *)

Lemma zero_SF : Prim2SF 0%float = S754_zero false.
Proof. reflexivity. Qed.

(** A number above zero is neither zero nor [NaN]. *)
Lemma positive_number (p : float) :
  PrimFloat.ltb 0 p = true ->
  PrimFloat.eqb p 0 = false /\ isNaN p = false /\ PrimFloat.leb 0 p = true.
Proof.
  unfold isNaN, is_nan.
  rewrite FloatAxioms.ltb_spec, !FloatAxioms.eqb_spec, FloatAxioms.leb_spec, zero_SF.
  unfold SFltb, SFeqb, SFleb.
  destruct (Prim2SF p) as [[]|[]| |[] m e] eqn:E; simpl; try discriminate;
    intros _; repeat split; try reflexivity.
  rewrite Z.compare_refl, Pos.compare_cont_refl. reflexivity.
Qed.

(** ** Constant tables *)

Lemma knownSymbols_eq : knownSymbols = ["BTC"; "ETH"; "USDT"; "SOL"].
Proof. reflexivity. Qed.

Lemma known_cases (symbol : string) :
  symbol ∈ knownSymbols ->
  symbol = "BTC" \/ symbol = "ETH" \/ symbol = "USDT" \/ symbol = "SOL".
Proof.
  rewrite knownSymbols_eq, !elem_of_cons, elem_of_nil. intuition.
Qed.

(** [FALLBACK_PRICES] covers the known symbols with positive prices. *)
Lemma fallback_covers (symbol : string) :
  symbol ∈ knownSymbols ->
  exists fallback,
    lookupKey symbol FALLBACK_PRICES = Some fallback
    /\ PrimFloat.ltb 0 (fallback_price fallback) = true.
Proof.
  intros Hs. destruct (known_cases _ Hs) as [->|[->|[->| ->]]];
    eexists; split; reflexivity.
Qed.

Lemma known_nonEmpty (symbol : string) :
  symbol ∈ knownSymbols -> nonEmpty symbol = true.
Proof.
  intros Hs. destruct (known_cases _ Hs) as [->|[->|[->| ->]]]; reflexivity.
Qed.

(** ** [mergePrices] *)

Lemma firstAvailable_positive symbol srcs entry :
  firstAvailable symbol srcs = Some entry -> PrimFloat.ltb 0 (price entry) = true.
Proof.
  induction srcs as [|[table|] rest IH]; simpl; [discriminate| |exact IH].
  destruct (table !! symbol) as [e|] eqn:E; [|exact IH].
  destruct (PrimFloat.ltb 0 (price e)) eqn:P; [|exact IH].
  intros [= <-]. exact P.
Qed.

(** The outer [forEach], over any list of symbols and from any table. *)
Lemma merge_fold_lookup srcs (symbols : list string) (acc : CryptoPrices) symbol :
  fold_left
    (fun merged s =>
       match firstAvailable s srcs with
       | Some entry => <[s := entry]> merged
       | None => merged
       end) symbols acc !! symbol
  = match (if bool_decide (symbol ∈ symbols)
           then firstAvailable symbol srcs else None) with
    | Some entry => Some entry
    | None => acc !! symbol
    end.
Proof.
  revert acc. induction symbols as [|s rest IH]; intros acc; cbn [fold_left].
  - rewrite bool_decide_eq_false_2 by apply not_elem_of_nil. reflexivity.
  - rewrite IH. destruct (decide (s = symbol)) as [->|Hne].
    + rewrite (bool_decide_eq_true_2 (symbol ∈ symbol :: rest)) by (apply elem_of_cons; left; reflexivity).
      destruct (firstAvailable symbol srcs) as [entry|] eqn:F.
      * destruct (bool_decide (symbol ∈ rest)); [reflexivity|].
        apply lookup_insert_eq.
      * destruct (bool_decide (symbol ∈ rest)); reflexivity.
    + rewrite (bool_decide_ext (symbol ∈ s :: rest) (symbol ∈ rest))
        by (rewrite elem_of_cons; intuition congruence).
      destruct (bool_decide (symbol ∈ rest)).
      * destruct (firstAvailable symbol srcs); [reflexivity|].
        destruct (firstAvailable s srcs); [apply lookup_insert_ne; exact Hne|reflexivity].
      * destruct (firstAvailable s srcs); [apply lookup_insert_ne; exact Hne|reflexivity].
Qed.

Lemma mergePrices_lookup srcs symbol :
  mergePrices srcs !! symbol
  = if bool_decide (symbol ∈ knownSymbols) then firstAvailable symbol srcs else None.
Proof.
  unfold mergePrices. rewrite merge_fold_lookup, lookup_empty.
  destruct (bool_decide (symbol ∈ knownSymbols)); [|reflexivity].
  destruct (firstAvailable symbol srcs); reflexivity.
Qed.

Lemma firstAvailable_cons symbol source rest :
  firstAvailable symbol (source :: rest)
  = if supplies source symbol then entryOf source symbol
    else firstAvailable symbol rest.
Proof.
  unfold supplies, entryOf. destruct source as [table|]; cbn; [|reflexivity].
  destruct (table !! symbol) as [entry|]; [|reflexivity].
  destruct (PrimFloat.ltb 0 (price entry)); reflexivity.
Qed.

Section PriceFacts.
Context `{Host}.

(** ** The fill loop *)

Lemma fill_fold_lookup (ids : list (string * string)) now (acc : CryptoPrices) symbol :
  NoDup (map fst ids) ->
  fold_left
    (fun finalPrices '(s, _) =>
       let missing :=
         match finalPrices !! s with
         | None => true
         | Some entry => PrimFloat.eqb (price entry) 0%float
         end in
       if missing then
         match lookupKey s FALLBACK_PRICES with
         | Some fallback => <[s := fallbackEntry fallback now]> finalPrices
         | None => finalPrices
         end
       else finalPrices) ids acc !! symbol
  = if bool_decide (symbol ∈ map fst ids)
    then filled now symbol (acc !! symbol) else acc !! symbol.
Proof.
  revert acc. induction ids as [|[s coinId] rest IH]; intros acc Hnd;
    cbn [fold_left map fst].
  - rewrite bool_decide_eq_false_2 by apply not_elem_of_nil. reflexivity.
  - cbn [map fst] in Hnd. apply NoDup_cons in Hnd as [Hnotin Hnd].
    rewrite IH by exact Hnd. destruct (decide (s = symbol)) as [->|Hne].
    + rewrite (bool_decide_eq_false_2 (symbol ∈ map fst rest)) by exact Hnotin.
      rewrite (bool_decide_eq_true_2 (symbol ∈ symbol :: map fst rest))
        by (apply elem_of_cons; left; reflexivity).
      unfold filled.
      destruct (acc !! symbol) as [entry|] eqn:E.
      * destruct (PrimFloat.eqb (price entry) 0) eqn:Z0; [|exact E].
        destruct (lookupKey symbol FALLBACK_PRICES); [apply lookup_insert_eq|exact E].
      * destruct (lookupKey symbol FALLBACK_PRICES); [apply lookup_insert_eq|exact E].
    + rewrite (bool_decide_ext (symbol ∈ s :: map fst rest) (symbol ∈ map fst rest))
        by (rewrite elem_of_cons; intuition congruence).
      assert ((if match acc !! s with
                  | Some entry => PrimFloat.eqb (price entry) 0
                  | None => true
                  end
               then match lookupKey s FALLBACK_PRICES with
                    | Some fallback => <[s:=fallbackEntry fallback now]> acc
                    | None => acc
                    end
               else acc) !! symbol = acc !! symbol) as ->; [|reflexivity].
      destruct (match acc !! s with
                | Some entry => PrimFloat.eqb (price entry) 0
                | None => true
                end); [|reflexivity].
      destruct (lookupKey s FALLBACK_PRICES); [|reflexivity].
      apply lookup_insert_ne. exact Hne.
Qed.

Lemma fillFallback_lookup now (mergedPrices : CryptoPrices) symbol :
  fillFallback now mergedPrices !! symbol
  = if bool_decide (symbol ∈ knownSymbols)
    then filled now symbol (mergedPrices !! symbol) else mergedPrices !! symbol.
Proof.
  unfold fillFallback. apply fill_fold_lookup.
  unfold COINGECKO_IDS. cbn [map fst].
  repeat (apply NoDup_cons_2;
          [rewrite ?elem_of_cons, elem_of_nil; intuition discriminate|]).
  apply NoDup_nil_2.
Qed.

(** The table of a round, for a known symbol: the first positive entry
    among the sources, else the fallback entry. *)
Lemma round_lookup now srcs symbol :
  symbol ∈ knownSymbols ->
  fillFallback now (mergePrices srcs) !! symbol
  = match firstAvailable symbol srcs with
    | Some entry => Some entry
    | None => (fun fallback => fallbackEntry fallback now) <$> lookupKey symbol FALLBACK_PRICES
    end.
Proof.
  intros Hs. rewrite fillFallback_lookup, mergePrices_lookup.
  rewrite !bool_decide_eq_true_2 by exact Hs. unfold filled.
  destruct (firstAvailable symbol srcs) as [entry|] eqn:F; [|reflexivity].
  apply firstAvailable_positive in F.
  destruct (positive_number _ F) as (-> & _ & _). reflexivity.
Qed.

(** ** [fetchPrices] *)

Lemma fetchPrices_skip seen now filledAt net st w :
  refreshes seen now st = false ->
  fetchPrices seen now filledAt net st w = (st, w).
Proof.
  unfold refreshes, fetchPrices. intros Hg.
  destruct (isFetching st); [reflexivity|].
  destruct ((now - lastFetchTime st <? CACHE_DURATION) && (0 <? size seen)%nat);
    [reflexivity|discriminate].
Qed.

Lemma fetchPrices_run seen now filledAt net st w :
  refreshes seen now st = true ->
  let st' := fst (fetchPrices seen now filledAt net st w) in
  let w' := snd (fetchPrices seen now filledAt net st w) in
  prices st'
  = fillFallback filledAt (mergePrices (collectSources (fst (fetchSources net w))))
  /\ lastFetchTime st' = now
  /\ isFetching st' = false
  /\ loading st' = false
  /\ w' = snd (fetchSources net w).
Proof.
  unfold refreshes, fetchPrices. intros Hg.
  destruct (isFetching st); [discriminate|].
  destruct ((now - lastFetchTime st <? CACHE_DURATION) && (0 <? size seen)%nat);
    [discriminate|].
  destruct (fetchSources net w) as [settled w1]. cbn.
  destruct (size seen =? 0)%nat; cbn; auto.
Qed.

(** Dropping the null values does not change what the merge finds. *)
Lemma firstAvailable_collect (r : Settled) symbol :
  firstAvailable symbol (collectSources r)
  = firstAvailable symbol [coingeckoPrices r; coincapPrices r; binancePrices r].
Proof.
  unfold collectSources.
  destruct (coingeckoPrices r), (coincapPrices r), (binancePrices r); reflexivity.
Qed.

(** The priority cascade over the three settled values. *)
Lemma firstAvailable_settled (r : Settled) symbol :
  firstAvailable symbol (collectSources r)
  = if supplies (coingeckoPrices r) symbol then entryOf (coingeckoPrices r) symbol
    else if supplies (coincapPrices r) symbol then entryOf (coincapPrices r) symbol
    else if supplies (binancePrices r) symbol then entryOf (binancePrices r) symbol
    else None.
Proof.
  rewrite firstAvailable_collect, !firstAvailable_cons. reflexivity.
Qed.

Lemma fallbackPrices_lookup now symbol :
  symbol ∈ knownSymbols ->
  fallbackPrices now !! symbol
  = (fun fallback => fallbackEntry fallback now) <$> lookupKey symbol FALLBACK_PRICES.
Proof.
  intros Hs. destruct (known_cases _ Hs) as [->|[->|[->| ->]]]; reflexivity.
Qed.

Lemma getPrice_positive (table : CryptoPrices) symbol entry :
  nonEmpty symbol = true ->
  table !! symbol = Some entry ->
  PrimFloat.ltb 0 (price entry) = true ->
  getPrice table symbol = Some (price entry).
Proof.
  intros Hn Hl Hp. unfold getPrice. rewrite Hn, Hl. cbn.
  destruct (positive_number _ Hp) as (-> & -> & _). reflexivity.
Qed.

(** A call stopped by a guard leaves the table it found, so a table that
    holds a positive price for a symbol still holds it. *)
Lemma fetchPrices_skip_keeps_entry seen now filledAt net st w symbol entry :
  refreshes seen now st = false ->
  prices st !! symbol = Some entry ->
  prices (fst (fetchPrices seen now filledAt net st w)) !! symbol = Some entry.
Proof.
  intros Hskip Hentry. rewrite fetchPrices_skip by exact Hskip. exact Hentry.
Qed.

(** The table of the mount effect, which is also the one of the [catch]
    branch, holds a positive price for every known symbol. *)
Lemma fallbackPrices_positive now symbol :
  symbol ∈ knownSymbols ->
  exists entry,
    fallbackPrices now !! symbol = Some entry
    /\ PrimFloat.ltb 0 (price entry) = true.
Proof.
  intros Hs. rewrite fallbackPrices_lookup by exact Hs.
  destruct (fallback_covers symbol Hs) as (fallback & -> & Hpos).
  eexists. split; [reflexivity|exact Hpos].
Qed.

(** ** The fallback guarantee *)


(** ** The circuit breaker *)

Lemma recordFailure_lookup apiName now (cbs : Breakers) b :
  cbs !! apiName = Some b ->
  recordFailure apiName now cbs !! apiName
  = Some {| failures := S (failures b);
            lastFailureTime := now;
            isOpen := if (CIRCUIT_BREAKER_THRESHOLD <=? S (failures b))%nat
                      then true else isOpen b |}.
Proof.
  intros Hb. unfold recordFailure. rewrite Hb. apply lookup_insert_eq.
Qed.

Lemma three_failures_open apiName t1 t2 t3 (cbs : Breakers) b :
  cbs !! apiName = Some b ->
  recordFailure apiName t3 (recordFailure apiName t2 (recordFailure apiName t1 cbs))
    !! apiName
  = Some {| failures := 3 + failures b; lastFailureTime := t3; isOpen := true |}.
Proof.
  intros Hb.
  pose proof (recordFailure_lookup apiName t1 cbs b Hb) as H1.
  pose proof (recordFailure_lookup apiName t2 _ _ H1) as H2.
  pose proof (recordFailure_lookup apiName t3 _ _ H2) as H3.
  rewrite H3. reflexivity.
Qed.

Lemma check_open_within apiName now (cbs : Breakers) b :
  cbs !! apiName = Some b ->
  isOpen b = true ->
  now - lastFailureTime b <= CIRCUIT_BREAKER_RESET_TIME ->
  checkCircuitBreaker apiName now cbs = (false, cbs).
Proof.
  intros Hb Ho Hw. unfold checkCircuitBreaker. rewrite Hb, Ho.
  destruct (Z.ltb_spec CIRCUIT_BREAKER_RESET_TIME (now - lastFailureTime b));
    [lia|reflexivity].
Qed.

Lemma check_open_after apiName now (cbs : Breakers) b :
  cbs !! apiName = Some b ->
  isOpen b = true ->
  CIRCUIT_BREAKER_RESET_TIME < now - lastFailureTime b ->
  checkCircuitBreaker apiName now cbs
  = (true, <[apiName := {| failures := 0;
                           lastFailureTime := lastFailureTime b;
                           isOpen := false |}]> cbs).
Proof.
  intros Hb Ho Hw. unfold checkCircuitBreaker. rewrite Hb, Ho.
  destruct (Z.ltb_spec CIRCUIT_BREAKER_RESET_TIME (now - lastFailureTime b));
    [reflexivity|lia].
Qed.

(** While its breaker is open and the cooldown has not elapsed, an
    attempt returns [null] and leaves the world, request log included,
    as it was. *)
Lemma attempt_short_circuited a w b :
  circuitBreakers w !! attemptSource a = Some b ->
  isOpen b = true ->
  attemptTime a - lastFailureTime b <= CIRCUIT_BREAKER_RESET_TIME ->
  runAttempt a w = (None, w).
Proof.
  intros Hb Ho Hw. destruct w as [cbs log]. cbn in Hb.
  destruct a as [x|x|x]; cbn in Hb, Hw |- *;
    unfold fetchFromCoinGecko, fetchFromCoinCap, fetchFromBinance; cbn;
    rewrite (check_open_within _ _ _ _ Hb Ho Hw); reflexivity.
Qed.

Lemma check_closed apiName now (cbs : Breakers) b :
  cbs !! apiName = Some b ->
  isOpen b = false ->
  checkCircuitBreaker apiName now cbs = (true, cbs).
Proof.
  intros Hb Hc. unfold checkCircuitBreaker. rewrite Hb, Hc. reflexivity.
Qed.

Lemma coinGeckoTry_thrown x (cbs cbs' : Breakers) b :
  cbs !! "coingecko" = Some b ->
  coinGeckoTry x cbs = (Thrown, cbs') ->
  exists b', cbs' !! "coingecko" = Some b' /\ (failures b <= failures b')%nat.
Proof.
  intros Hb. unfold coinGeckoTry.
  assert (exists b', cbs !! "coingecko" = Some b' /\ (failures b <= failures b')%nat)
    as Hkeep by (exists b; split; [exact Hb|lia]).
  destruct (reply x) as [|status body]; [intros [= <-]; exact Hkeep|].
  destruct (negb (ok status)).
  - destruct (status =? 429); [|intros [= <-]; exact Hkeep].
    intros [= <-]. unfold forceOpen.
    rewrite (recordFailure_lookup _ _ _ _ Hb).
    eexists. split; [apply lookup_insert_eq|cbn; lia].
  - destruct body as [data|]; [|intros [= <-]; exact Hkeep].
    destruct (coinGeckoNewPrices data (doneAt x)) as [newPrices|];
      [|intros [= <-]; exact Hkeep].
    destruct (0 <? size newPrices)%nat; [discriminate|intros [= <-]; exact Hkeep].
Qed.

(** An attempt let through by a closed breaker that returns [null] has
    requested the source and recorded a failure at the clock of its end. *)
Lemma attempt_failure_recorded a w w' b :
  circuitBreakers w !! attemptSource a = Some b ->
  isOpen b = false ->
  runAttempt a w = (None, w') ->
  exists b',
    circuitBreakers w' !! attemptSource a = Some b'
    /\ (failures b < failures b')%nat
    /\ lastFailureTime b' = attemptDone a.
Proof.
  intros Hb Hc. destruct w as [cbs log]. cbn in Hb.
  destruct a as [x|x|x]; cbn in Hb |- *.
  - unfold fetchFromCoinGecko. cbn. rewrite (check_closed _ _ _ _ Hb Hc). cbn.
    destruct (coinGeckoTry x cbs) as [[newPrices|] cbs1] eqn:T; [discriminate|].
    destruct (coinGeckoTry_thrown x cbs cbs1 b Hb T) as (b1 & Hb1 & Hle).
    intros [= <-]. cbn. rewrite (recordFailure_lookup _ _ _ _ Hb1).
    eexists. split; [reflexivity|]. cbn. split; [lia|reflexivity].
  - unfold fetchFromCoinCap. cbn. rewrite (check_closed _ _ _ _ Hb Hc). cbn.
    assert (forall cbs1, coinCapTry x cbs = (Thrown, cbs1) -> cbs1 = cbs) as Hsame.
    { unfold coinCapTry. intros cbs1.
      destruct (reply x) as [|status [json|]]; try (intros [= <-]; reflexivity);
        destruct (negb (ok status)); try (intros [= <-]; reflexivity).
      destruct (0 <? size _)%nat; [discriminate|intros [= <-]; reflexivity]. }
    destruct (coinCapTry x cbs) as [[newPrices|] cbs1] eqn:T; [discriminate|].
    rewrite (Hsame cbs1 eq_refl). intros [= <-]. cbn.
    rewrite (recordFailure_lookup _ _ _ _ Hb).
    eexists. split; [reflexivity|]. cbn. split; [lia|reflexivity].
  - unfold fetchFromBinance. cbn. rewrite (check_closed _ _ _ _ Hb Hc). cbn.
    assert (forall cbs1, binanceTry x cbs = (Thrown, cbs1) -> cbs1 = cbs) as Hsame.
    { unfold binanceTry. intros cbs1.
      destruct (0 <? size _)%nat; [discriminate|intros [= <-]; reflexivity]. }
    destruct (binanceTry x cbs) as [[newPrices|] cbs1] eqn:T; [discriminate|].
    rewrite (Hsame cbs1 eq_refl). intros [= <-]. cbn.
    rewrite (recordFailure_lookup _ _ _ _ Hb).
    eexists. split; [reflexivity|]. cbn. split; [lia|reflexivity].
Qed.

(** C5. For every source whose breaker exists, once three failures in a
    row have been recorded (the last at [t3]) the breaker is open; every
    later sequence of fetch attempts on that source, each checked no
    more than [CIRCUIT_BREAKER_RESET_TIME] after [t3], returns [null]
    throughout and leaves breakers and request log untouched; and a check
    made more than [CIRCUIT_BREAKER_RESET_TIME] after [t3] lets the call
    through, closing the breaker with its failure counter at zero. *)
Theorem circuit_breaker_cooldown apiName (w : World) b t1 t2 t3 :
  circuitBreakers w !! apiName = Some b ->
  let opened :=
    {| circuitBreakers :=
         recordFailure apiName t3
           (recordFailure apiName t2 (recordFailure apiName t1 (circuitBreakers w)));
       fetched := fetched w |} in
  circuitBreakers opened !! apiName
  = Some {| failures := 3 + failures b; lastFailureTime := t3; isOpen := true |}
  /\ (forall attempts,
         Forall (fun a => attemptSource a = apiName
                          /\ attemptTime a - t3 <= CIRCUIT_BREAKER_RESET_TIME)
                attempts ->
         runAttempts attempts opened = (map (fun _ => None) attempts, opened))
  /\ (forall now,
         CIRCUIT_BREAKER_RESET_TIME < now - t3 ->
         checkCircuitBreaker apiName now (circuitBreakers opened)
         = (true, <[apiName := {| failures := 0; lastFailureTime := t3;
                                  isOpen := false |}]> (circuitBreakers opened))).
Proof.
  intros Hb opened.
  pose proof (three_failures_open apiName t1 t2 t3 _ _ Hb) as Hopen.
  split; [exact Hopen|]. split.
  - intros attempts Hall. induction Hall as [|a rest [Hsrc Htime] _ IH].
    + reflexivity.
    + cbn [runAttempts map].
      rewrite (attempt_short_circuited a opened _
                 ltac:(rewrite Hsrc; exact Hopen) eq_refl Htime).
      rewrite IH. reflexivity.
  - intros now Hnow.
    apply (check_open_after apiName now _ _ Hopen eq_refl Hnow).
Qed.

(** A round leaves an entry for BTC, so a table with data. *)
Lemma fetchPrices_fallback_data seen now filledAt net st w :
  refreshes seen now st = true ->
  exists entry,
    prices (fst (fetchPrices seen now filledAt net st w)) !! "BTC" = Some entry.
Proof.
  intros Hr. destruct (fetchPrices_run seen now filledAt net st w Hr) as (-> & _).
  rewrite round_lookup by (rewrite knownSymbols_eq; apply elem_of_cons; left; reflexivity).
  destruct (firstAvailable "BTC" _); cbn; eauto.
Qed.

(** ** The cache window *)

Lemma settle_once (fetcher : nat -> World -> option CryptoPrices * World) w :
  settle fetcher w = fetcher 0%nat w.
Proof.
  unfold settle, retryWithBackoff. cbn. destruct (fetcher 0%nat w). reflexivity.
Qed.

Lemma fetchFromCoinGecko_log x w :
  fetched (snd (fetchFromCoinGecko x w)) = fetched w
  \/ fetched (snd (fetchFromCoinGecko x w)) = fetched w ++ [coinGeckoUrl].
Proof.
  unfold fetchFromCoinGecko.
  destruct (checkCircuitBreaker "coingecko" (checkedAt x) (circuitBreakers w))
    as [[] cbs]; cbn; [|left; reflexivity].
  destruct (coinGeckoTry x cbs) as [[newPrices|] cbs']; right; reflexivity.
Qed.

Lemma fetchFromCoinCap_log x w :
  fetched (snd (fetchFromCoinCap x w)) = fetched w
  \/ fetched (snd (fetchFromCoinCap x w)) = fetched w ++ [coinCapUrl].
Proof.
  unfold fetchFromCoinCap.
  destruct (checkCircuitBreaker "coincap" (checkedAt x) (circuitBreakers w))
    as [[] cbs]; cbn; [|left; reflexivity].
  destruct (coinCapTry x cbs) as [[newPrices|] cbs']; right; reflexivity.
Qed.

Lemma fetchFromBinance_log x w :
  fetched (snd (fetchFromBinance x w)) = fetched w
  \/ fetched (snd (fetchFromBinance x w)) = fetched w ++ binanceUrls.
Proof.
  unfold fetchFromBinance.
  destruct (checkCircuitBreaker "binance" (checkedAt x) (circuitBreakers w))
    as [[] cbs]; cbn; [|left; reflexivity].
  destruct (binanceTry x cbs) as [[newPrices|] cbs']; right; reflexivity.
Qed.

(** One [Promise.allSettled] round requests each source at most once. *)
Lemma fetchSources_log net w :
  exists cg cc bn,
    fetched (snd (fetchSources net w)) = fetched w ++ cg ++ cc ++ bn
    /\ (cg = [] \/ cg = [coinGeckoUrl])
    /\ (cc = [] \/ cc = [coinCapUrl])
    /\ (bn = [] \/ bn = binanceUrls).
Proof.
  unfold fetchSources. rewrite !settle_once.
  pose proof (fetchFromCoinGecko_log (coingeckoNet net 0%nat) w) as H1.
  destruct (fetchFromCoinGecko (coingeckoNet net 0%nat) w) as [cgv w1].
  pose proof (fetchFromCoinCap_log (coincapNet net 0%nat) w1) as H2.
  rewrite settle_once.
  destruct (fetchFromCoinCap (coincapNet net 0%nat) w1) as [ccv w2].
  pose proof (fetchFromBinance_log (binanceNet net 0%nat) w2) as H3.
  rewrite settle_once.
  destruct (fetchFromBinance (binanceNet net 0%nat) w2) as [bnv w3].
  cbn in *.
  destruct H1 as [E1|E1]; [exists []|exists [coinGeckoUrl]];
    (destruct H2 as [E2|E2]; [exists []|exists [coinCapUrl]]);
    (destruct H3 as [E3|E3]; [exists []|exists binanceUrls]);
    (split; [|auto]);
    rewrite E3, E2, E1;
    rewrite ?app_nil_r, <- ?app_assoc; cbn [app]; rewrite ?app_nil_r;
    reflexivity.
Qed.

(** The cache guard, had it the current table to look at. Let a first
    [fetchPrices] call get past its guards at clock [now1] and complete;
    its round requests each source at most once and the table it leaves
    has data. A call whose [prices] binding were that table, made while
    fewer than [CACHE_DURATION] ms have passed since [now1], would return
    at once. The hook makes no such call: see [fetchInBackground]. *)
Lemma cache_guard_with_current_table seen now1 filled1 net1 st w now2 filled2 net2 :
  isFetching st = false ->
  (now1 - lastFetchTime st <? CACHE_DURATION) && (0 <? size seen)%nat = false ->
  now2 - now1 < CACHE_DURATION ->
  let first := fetchPrices seen now1 filled1 net1 st w in
  (0 < size (prices (fst first)))%nat
  /\ fetchPrices (prices (fst first)) now2 filled2 net2 (fst first) (snd first) = first
  /\ exists cg cc bn,
       fetched (snd first) = fetched w ++ cg ++ cc ++ bn
       /\ (cg = [] \/ cg = [coinGeckoUrl])
       /\ (cc = [] \/ cc = [coinCapUrl])
       /\ (bn = [] \/ bn = binanceUrls).
Proof.
  intros Hf Hc Hwin first.
  assert (refreshes seen now1 st = true) as Hr
      by (unfold refreshes; rewrite Hf, Hc; reflexivity).
  destruct (fetchPrices_run seen now1 filled1 net1 st w Hr)
    as (Ht & Hlast & Hfetching & _ & Hw).
  fold first in Ht, Hlast, Hfetching, Hw.
  assert (0 < size (prices (fst first)))%nat as Hsize.
  { destruct (fetchPrices_fallback_data seen now1 filled1 net1 st w Hr)
      as (entry & He). fold first in He.
    assert (size (prices (fst first)) <> 0%nat); [|lia].
    apply map_size_ne_0_lookup. exists "BTC". rewrite He. eauto. }
  split; [exact Hsize|]. split.
  - rewrite fetchPrices_skip; [destruct first; reflexivity|].
    unfold refreshes. rewrite Hfetching, Hlast.
    rewrite (proj2 (Z.ltb_lt _ _) Hwin), (proj2 (Nat.ltb_lt _ _) Hsize).
    reflexivity.
  - rewrite Hw. apply fetchSources_log.
Qed.

(** ** Reading and formatting a price *)



End PriceFacts.

(** ** Closed instances *)

#[local] Existing Instance exampleHost.


Lemma circuit_breaker_cooldown_witness :
  circuitBreakers freshWorld !! "coingecko" = Some closedBreaker
  /\ let opened :=
       {| circuitBreakers :=
            recordFailure "coingecko" 3000
              (recordFailure "coingecko" 2000
                 (recordFailure "coingecko" 1000 (circuitBreakers freshWorld)));
          fetched := fetched freshWorld |} in
     circuitBreakers opened !! "coingecko"
     = Some {| failures := 3; lastFailureTime := 3000; isOpen := true |}
     /\ (forall attempts,
            Forall (fun a => attemptSource a = "coingecko"
                             /\ attemptTime a - 3000 <= CIRCUIT_BREAKER_RESET_TIME)
                   attempts ->
            runAttempts attempts opened = (map (fun _ => None) attempts, opened))
     /\ (forall now,
            CIRCUIT_BREAKER_RESET_TIME < now - 3000 ->
            checkCircuitBreaker "coingecko" now (circuitBreakers opened)
            = (true, <["coingecko" := {| failures := 0; lastFailureTime := 3000;
                                         isOpen := false |}]> (circuitBreakers opened))).
Proof.
  split; [reflexivity|].
  exact (circuit_breaker_cooldown "coingecko" freshWorld closedBreaker 1000 2000 3000
           eq_refl).
Defined.


End PriceProofs.

(** * Properties of the balance hook *)

Module BalanceProofs.
Import Js BalanceHook BalanceNotions.

(** ** [loadBalances] *)

Lemma loadFinally_balances showLoading retryCount st :
  balances (loadFinally showLoading retryCount st) = balances st.
Proof.
  unfold loadFinally. destruct (showLoading || (retryCount =? 0)%nat); reflexivity.
Qed.

(** One invocation either keeps the snapshot or installs the rows of a
    read that came back without error and with data. *)
Lemma loadBalancesOnce_balances user showLoading retryCount result st :
  balances (fst (loadBalancesOnce user showLoading retryCount result st))
  = match user, result with
    | Some _, QueryData (Some rows) => rows
    | _, _ => balances st
    end.
Proof.
  unfold loadBalancesOnce. destruct user as [u|]; [|reflexivity].
  destruct result as [code message|[rows|]|];
    repeat (destruct (_ <? _)%nat); cbn; rewrite loadFinally_balances;
    destruct (showLoading && (retryCount =? 0)%nat); reflexivity.
Qed.

(** A retry is left only below [MAX_RETRIES], and for the next count. *)
Lemma loadBalancesOnce_retry user showLoading retryCount result st delay next :
  snd (loadBalancesOnce user showLoading retryCount result st) = Some (delay, next) ->
  (retryCount < MAX_RETRIES)%nat /\ next = S retryCount /\ failed result = true.
Proof.
  unfold loadBalancesOnce. destruct user as [u|]; [|discriminate].
  destruct result as [code message|data|]; [| discriminate |];
    destruct (retryCount <? MAX_RETRIES)%nat eqn:E; cbn; try discriminate;
    apply Nat.ltb_lt in E; intros Heq; inversion Heq; subst; auto.
Qed.

(** With fuel for the retries that remain, the chain runs to its end, and
    its snapshot is the one it started with or the rows of one of its
    reads. *)
Lemma loadBalancesFrom_runs fuel user showLoading results :
  forall retryCount st waited,
    (MAX_RETRIES - retryCount < fuel)%nat ->
    exists st' waited',
      loadBalancesFrom fuel user showLoading retryCount results st waited
      = Some (st', waited')
      /\ (balances st' = balances st
          \/ exists k rows,
               (retryCount <= k <= Nat.max retryCount MAX_RETRIES)%nat
               /\ (forall j, (retryCount <= j < k)%nat -> failed (results j) = true)
               /\ results k = QueryData (Some rows)
               /\ balances st' = rows).
Proof.
  induction fuel as [|fuel IH]; intros retryCount st waited Hfuel; [lia|].
  cbn [loadBalancesFrom].
  pose proof (loadBalancesOnce_balances user showLoading retryCount
                (results retryCount) st) as Hb.
  pose proof (loadBalancesOnce_retry user showLoading retryCount
                (results retryCount) st) as Hr.
  destruct (loadBalancesOnce user showLoading retryCount (results retryCount) st)
    as [st1 [[delay next]|]]; cbn in Hb, Hr.
  - destruct (Hr delay next eq_refl) as (Hlt & -> & Hfail).
    destruct (IH (S retryCount) st1 (waited ++ [delay]) ltac:(lia))
      as (st' & waited' & Hrun & Hres).
    exists st', waited'. split; [exact Hrun|].
    assert (balances st1 = balances st) as Hkeep.
    { rewrite Hb. destruct user; [|reflexivity].
      destruct (results retryCount) as [| [rows|] |]; try reflexivity; discriminate. }
    destruct Hres as [Hsame|(k & rows & Hk & Hbefore & Hread & Hrows)].
    + left. congruence.
    + right. exists k, rows. split; [lia|]. split; [|split; assumption].
      intros j Hj. destruct (decide (j = retryCount)) as [->|Hne];
        [exact Hfail|apply Hbefore; lia].
  - exists st1, waited. split; [reflexivity|].
    destruct user as [u|]; [|left; exact Hb].
    destruct (results retryCount) as [| [rows|] |] eqn:Hread;
      try (left; exact Hb).
    right. exists retryCount, rows. split; [lia|]. split; [intros j Hj; lia|].
    split; [exact Hread|exact Hb].
Qed.

Lemma loadBalances_runs user showLoading retryCount results st :
  exists st' waited,
    loadBalances user showLoading retryCount results st = Some (st', waited)
    /\ (balances st' = balances st
        \/ exists k rows,
             (retryCount <= k <= Nat.max retryCount MAX_RETRIES)%nat
             /\ (forall j, (retryCount <= j < k)%nat -> failed (results j) = true)
             /\ results k = QueryData (Some rows)
             /\ balances st' = rows).
Proof.
  unfold loadBalances. apply loadBalancesFrom_runs. lia.
Qed.

(** C3. When every query made by a [loadBalances] call and by its retries
    fails, through the last retry, the call ends and the snapshot is the
    one it started with: every entry is still there, and a snapshot with
    entries is not emptied. *)
Theorem failed_load_keeps_snapshot user showLoading retryCount results st :
  (forall k, (retryCount <= k <= Nat.max retryCount MAX_RETRIES)%nat ->
             failed (results k) = true) ->
  exists st' waited,
    loadBalances user showLoading retryCount results st = Some (st', waited)
    /\ balances st' = balances st
    /\ (forall b, b ∈ balances st -> b ∈ balances st')
    /\ (balances st <> [] -> balances st' <> []).
Proof.
  intros Hfail.
  destruct (loadBalances_runs user showLoading retryCount results st)
    as (st' & waited & Hrun & Hres).
  exists st', waited. split; [exact Hrun|].
  assert (balances st' = balances st) as Hsame.
  { destruct Hres as [Hsame|(k & rows & Hk & _ & Hread & _)]; [exact Hsame|].
    specialize (Hfail k Hk). rewrite Hread in Hfail. discriminate. }
  rewrite Hsame. auto.
Qed.


(** ** Session changes *)

(** C2, as the code has it. Let the hook hold the session of user [a].
    When the effect runs for a different user [b], the snapshot is left as
    it was: the effect records [b], raises [loading] and goes on to load,
    and the first read that returns rows for [b] replaces the snapshot.
    When the effect runs again for [a] itself, snapshot and [loading] are
    left as they were. The snapshot is cleared when the user becomes
    null. *)
Theorem session_change_keeps_snapshot (a b : User) (st : HookState) :
  userIdRef st = Some (id a) ->
  id b <> id a ->
  (let switched := useBalanceEffect (Some b) st in
   balances (fst switched) = balances st
   /\ loading (fst switched) = true
   /\ userIdRef (fst switched) = Some (id b)
   /\ snd switched = true
   /\ forall rows,
        exists st' waited,
          loadBalances (Some b) false 0 (fun _ => QueryData (Some rows)) (fst switched)
          = Some (st', waited)
          /\ balances st' = rows)
  /\ (let revalidated := useBalanceEffect (Some a) st in
      balances (fst revalidated) = balances st
      /\ loading (fst revalidated) = loading st
      /\ userIdRef (fst revalidated) = Some (id a)
      /\ snd revalidated = true)
  /\ balances (fst (useBalanceEffect None st)) = [].
Proof.
  intros Href Hne. unfold useBalanceEffect. rewrite Href. split; [|split].
  - rewrite bool_decide_eq_false_2 by (intros [= E]; congruence). cbn.
    repeat split. intros rows. do 2 eexists. split; [reflexivity|reflexivity].
  - rewrite bool_decide_eq_true_2 by reflexivity. cbn. repeat split.
  - reflexivity.
Qed.

(** ** The polling fallback *)

Lemma startPolling_polls loc timers :
  isCleaningUp loc = false ->
  pollingConsistent loc timers ->
  exists handle,
    pollInterval (fst (startPolling loc timers)) = Some handle
    /\ active (snd (startPolling loc timers)) !! handle = Some pollEvery30s
    /\ isCleaningUp (fst (startPolling loc timers)) = false
    /\ (pollInterval loc = None ->
        handle = nextHandle timers
        /\ active (snd (startPolling loc timers))
           = <[handle := pollEvery30s]> (active timers)).
Proof.
  intros Hlive Hcons. unfold startPolling.
  destruct (pollInterval loc) as [held|] eqn:Hp.
  - exists held. cbn. split; [exact Hp|]. split; [apply Hcons; exact Hp|].
    split; [exact Hlive|]. intros Hnone. congruence.
  - rewrite Hlive. cbn. exists (nextHandle timers).
    split; [reflexivity|]. split; [apply lookup_insert_eq|].
    split; [reflexivity|]. intros _. split; reflexivity.
Qed.

(** C8. On a live effect (one whose cleanup has not run), a status
    callback reporting [CHANNEL_ERROR] or [TIMED_OUT] leaves a 30-second
    interval running [loadBalances(false)]: a new one when none was held.
    A later callback reporting [SUBSCRIBED] cancels that interval and
    forgets its handle. *)
Theorem polling_fallback_while_live status loc timers :
  isCleaningUp loc = false ->
  pollingConsistent loc timers ->
  status = CHANNEL_ERROR \/ status = TIMED_OUT ->
  let failedOver := onSubscriptionStatus status loc timers in
  exists handle,
    pollInterval (fst failedOver) = Some handle
    /\ active (snd failedOver) !! handle = Some pollEvery30s
    /\ (pollInterval loc = None ->
        handle = nextHandle timers
        /\ active (snd failedOver) = <[handle := pollEvery30s]> (active timers))
    /\ let recovered :=
         onSubscriptionStatus SUBSCRIBED (fst failedOver) (snd failedOver) in
       pollInterval (fst recovered) = None
       /\ active (snd recovered) !! handle = None.
Proof.
  intros Hlive Hcons Hstatus failedOver.
  assert (failedOver = startPolling loc timers) as Hfo.
  { unfold failedOver, onSubscriptionStatus. rewrite Hlive.
    destruct Hstatus as [-> | ->]; reflexivity. }
  destruct (startPolling_polls loc timers Hlive Hcons)
    as (handle & Hheld & Hactive & Hlive' & Hnew).
  rewrite <- Hfo in Hheld, Hactive, Hlive', Hnew.
  exists handle. split; [exact Hheld|]. split; [exact Hactive|]. split; [exact Hnew|].
  unfold onSubscriptionStatus. rewrite Hlive', Hheld. cbn.
  split; [reflexivity|]. apply lookup_delete_eq.
Qed.

(** ** Portfolio value *)

Lemma total_fold_filter (rows : list Balance) (start : float) :
  fold_left
    (fun total b =>
       if String.eqb (token b) "ZENTRA"
       then (total + balance b * ZENTRA_PRICE)%float
       else total) rows start
  = fold_left (fun total b => (total + balance b * ZENTRA_PRICE)%float)
      (filter (fun b => token b = "ZENTRA") rows) start.
Proof.
  revert start. induction rows as [|b rest IH]; intros start; [reflexivity|].
  cbn [fold_left]. rewrite filter_cons.
  destruct (String.eqb_spec (token b) "ZENTRA") as [E|E].
  - rewrite decide_True by exact E. cbn [fold_left]. apply IH.
  - rewrite decide_False by exact E. apply IH.
Qed.

(** C9, as the code has it. The total is the sum, in snapshot order, of
    amount times [ZENTRA_PRICE] over the ZENTRA rows; a row of any other
    token adds nothing, whatever the aggregator quotes for it. It is the
    total the spec words whenever the aggregator has no quote for the
    other tokens of the snapshot. *)
Theorem total_counts_zentra_only (st : HookState) :
  getTotalPortfolioValue st
  = fold_left (fun total b => (total + balance b * ZENTRA_PRICE)%float)
      (filter (fun b => token b = "ZENTRA") (balances st)) 0%float
  /\ forall quote : string -> option float,
       (forall b, b ∈ balances st -> token b <> "ZENTRA" -> quote (token b) = None) ->
       getTotalPortfolioValue st = specTotalValue quote st.
Proof.
  split; [apply total_fold_filter|].
  intros quote Hq. unfold getTotalPortfolioValue, specTotalValue.
  generalize 0%float as start. revert Hq.
  induction (balances st) as [|b rest IH]; intros Hq start; [reflexivity|].
  cbn [fold_left]. unfold specPrice at 2.
  destruct (String.eqb_spec (token b) "ZENTRA") as [E|E].
  - apply IH. intros b' Hb'. apply Hq. apply elem_of_cons. right. exact Hb'.
  - rewrite (Hq b) by (try (apply elem_of_cons; left; reflexivity); exact E).
    apply IH. intros b' Hb'. apply Hq. apply elem_of_cons. right. exact Hb'.
Qed.

(** ** Closed instances *)

Lemma failed_load_keeps_snapshot_witness :
  (forall k, (0 <= k <= Nat.max 0 MAX_RETRIES)%nat ->
             failed ((fun _ => QueryError "500" "upstream") k) = true)
  /\ exists st' waited,
       loadBalances (Some userA) true 0 (fun _ => QueryError "500" "upstream") holding
       = Some (st', waited)
       /\ balances st' = balances holding
       /\ (forall b, b ∈ balances holding -> b ∈ balances st')
       /\ (balances holding <> [] -> balances st' <> []).
Proof.
  assert (forall k, (0 <= k <= Nat.max 0 MAX_RETRIES)%nat ->
                    failed ((fun _ => QueryError "500" "upstream") k) = true) as Hall
      by (intros k _; reflexivity).
  split; [exact Hall|].
  exact (failed_load_keeps_snapshot (Some userA) true 0
           (fun _ => QueryError "500" "upstream") holding Hall).
Defined.


(** The claim of C2 fails where the user changes from one non-null user
    to another: the effect leaves the first user's row in the snapshot,
    and it is still there after a load for the second user whose reads
    all fail. *)
Lemma switching_user_keeps_rows :
  userIdRef holding = Some (id userA)
  /\ balances (fst (useBalanceEffect (Some userB) holding)) = [zentraRow]
  /\ userIdRef (fst (useBalanceEffect (Some userB) holding)) = Some (id userB)
  /\ exists st' waited,
       loadBalances (Some userB) false 0 (fun _ => QueryThrew)
         (fst (useBalanceEffect (Some userB) holding)) = Some (st', waited)
       /\ balances st' = [zentraRow].
Proof.
  split; [reflexivity|]. split; [reflexivity|]. split; [reflexivity|].
  do 2 eexists. split; [reflexivity|reflexivity].
Qed.

Lemma session_change_keeps_snapshot_witness :
  userIdRef holding = Some (id userA)
  /\ id userB <> id userA
  /\ balances (fst (useBalanceEffect (Some userB) holding)) = balances holding
  /\ balances (fst (useBalanceEffect (Some userA) holding)) = balances holding
  /\ balances (fst (useBalanceEffect None holding)) = [].
Proof.
  assert (id userB <> id userA) as Hne by discriminate.
  split; [reflexivity|]. split; [exact Hne|].
  destruct (session_change_keeps_snapshot userA userB holding eq_refl Hne)
    as ((Hswitch & _) & (Hsame & _) & Hout).
  split; [exact Hswitch|]. split; [exact Hsame|exact Hout].
Defined.

Lemma polling_fallback_while_live_witness :
  let live := {| pollInterval := None; isCleaningUp := false |} in
  isCleaningUp live = false
  /\ pollingConsistent live noTimers
  /\ (CHANNEL_ERROR = CHANNEL_ERROR \/ CHANNEL_ERROR = TIMED_OUT)
  /\ exists handle,
       pollInterval (fst (onSubscriptionStatus CHANNEL_ERROR live noTimers))
       = Some handle
       /\ active (snd (onSubscriptionStatus CHANNEL_ERROR live noTimers)) !! handle
          = Some pollEvery30s
       /\ (pollInterval live = None ->
           handle = nextHandle noTimers
           /\ active (snd (onSubscriptionStatus CHANNEL_ERROR live noTimers))
              = <[handle := pollEvery30s]> (active noTimers))
       /\ pollInterval
            (fst (onSubscriptionStatus SUBSCRIBED
                    (fst (onSubscriptionStatus CHANNEL_ERROR live noTimers))
                    (snd (onSubscriptionStatus CHANNEL_ERROR live noTimers)))) = None
       /\ active
            (snd (onSubscriptionStatus SUBSCRIBED
                    (fst (onSubscriptionStatus CHANNEL_ERROR live noTimers))
                    (snd (onSubscriptionStatus CHANNEL_ERROR live noTimers))))
            !! handle = None.
Proof.
  intros live.
  assert (pollingConsistent live noTimers) as Hcons by (intros handle; discriminate).
  split; [reflexivity|]. split; [exact Hcons|]. split; [left; reflexivity|].
  exact (polling_fallback_while_live CHANNEL_ERROR live noTimers eq_refl Hcons
           (or_introl eq_refl)).
Defined.

(** The claim of C9 fails on a snapshot holding a token the aggregator
    quotes: one BTC, quoted at 95000, adds nothing to the total. *)
Lemma quoted_token_counts_zero :
  let quotes : gmap string CryptoPrices.PriceEntry :=
    {[ "BTC" := {| CryptoPrices.price := 95000; CryptoPrices.change24h := 2.5;
                   CryptoPrices.lastUpdated := "2025-01-01T00:00:00.000Z" |} ]} in
  let st := {| balances := [{| user_id := "user-a"; token := "BTC"; balance := 1;
                               updated_at := "2025-01-01T00:00:00.000Z" |}];
               loading := false; userIdRef := Some "user-a" |} in
  CryptoPrices.getPrice quotes "BTC" = Some 95000%float
  /\ getTotalPortfolioValue st = 0%float
  /\ specTotalValue (CryptoPrices.getPrice quotes) st = 95000%float
  /\ PrimFloat.eqb (getTotalPortfolioValue st)
       (specTotalValue (CryptoPrices.getPrice quotes) st) = false.
Proof. repeat split; reflexivity. Qed.

End BalanceProofs.

(** * Further properties of the price hook *)

Module PriceExtras.
Import Js CryptoPrices PriceHookRest PriceNotions MoreNotions PriceProofs.

(** ** [retryWithBackoff] *)

Lemma invoked_step {St A : Type} (fn : nat -> St -> Outcome A * St) k s :
  invoked fn (S k) s = snd (fn k (invoked fn k s)).
Proof. reflexivity. Qed.

(** The loop from any iteration on, when every attempt left throws. *)
Lemma retryFrom_all_thrown {St A : Type} (fn : nat -> St -> Outcome A * St)
    maxRetries baseDelay (s : St) :
  forall remaining slept,
    (remaining <= maxRetries)%nat ->
    (forall k, (maxRetries - remaining <= k < maxRetries)%nat ->
               outcomeAt fn k s = Thrown) ->
    retryFrom fn maxRetries baseDelay remaining
      (invoked fn (maxRetries - remaining) s) slept
    = (Thrown, invoked fn maxRetries s,
       slept ++ map (backoff baseDelay)
                    (seq (maxRetries - remaining) (remaining - 1))).
Proof.
  induction remaining as [|r IH]; intros slept Hle Hall.
  - cbn. rewrite Nat.sub_0_r, app_nil_r. reflexivity.
  - cbn [retryFrom].
    pose proof (Hall (maxRetries - S r)%nat ltac:(lia)) as Hthrown.
    unfold outcomeAt in Hthrown.
    destruct (fn (maxRetries - S r)%nat (invoked fn (maxRetries - S r) s))
      as [[a|] s1] eqn:E; cbn in Hthrown; [discriminate|].
    assert (s1 = invoked fn (maxRetries - r) s) as ->.
    { replace (maxRetries - r)%nat with (S (maxRetries - S r)) by lia.
      rewrite invoked_step, E. reflexivity. }
    rewrite IH by (try lia; intros k Hk; apply Hall; lia).
    f_equal. destruct r as [|r'].
    + rewrite (proj2 (Nat.ltb_ge _ _)) by lia. cbn. rewrite !app_nil_r. reflexivity.
    + rewrite (proj2 (Nat.ltb_lt _ _)) by lia.
      rewrite <- app_assoc. f_equal. cbn [app].
      replace (S (S r') - 1)%nat with (S r') by lia.
      replace (S r' - 1)%nat with r' by lia.
      cbn [seq map]. unfold backoff at 2.
      replace (S (maxRetries - S (S r')))%nat with (maxRetries - S r')%nat by lia.
      reflexivity.
Qed.

(** X1. When every attempt throws, [retryWithBackoff] gives up with the
    error after exactly [maxRetries] invocations, having waited
    [baseDelay * 2 ^ k] after each attempt [k] but the last. *)
Theorem retryWithBackoff_exhausted {St A : Type} (fn : nat -> St -> Outcome A * St)
    maxRetries baseDelay (s : St) :
  (forall k, (k < maxRetries)%nat -> outcomeAt fn k s = Thrown) ->
  retryWithBackoff fn maxRetries baseDelay s
  = (Thrown, invoked fn maxRetries s,
     map (backoff baseDelay) (seq 0 (maxRetries - 1))).
Proof.
  intros Hall. unfold retryWithBackoff.
  pose proof (retryFrom_all_thrown fn maxRetries baseDelay s maxRetries []
                (Nat.le_refl _)) as Hrun.
  rewrite Nat.sub_diag in Hrun. cbn [invoked app] in Hrun.
  apply Hrun. intros k Hk. apply Hall. lia.
Qed.

(** The loop from any iteration on, up to the first attempt that returns. *)
Lemma retryFrom_first_return {St A : Type} (fn : nat -> St -> Outcome A * St)
    maxRetries baseDelay (s : St) first (a : A) :
  (first < maxRetries)%nat ->
  outcomeAt fn first s = Returned a ->
  forall remaining slept,
    (remaining <= maxRetries)%nat ->
    (maxRetries - remaining <= first)%nat ->
    (forall k, (maxRetries - remaining <= k < first)%nat ->
               outcomeAt fn k s = Thrown) ->
    retryFrom fn maxRetries baseDelay remaining
      (invoked fn (maxRetries - remaining) s) slept
    = (Returned a, invoked fn (S first) s,
       slept ++ map (backoff baseDelay)
                    (seq (maxRetries - remaining) (first - (maxRetries - remaining)))).
Proof.
  intros Hfirst Hret.
  induction remaining as [|r IH]; intros slept Hle Hstart Hall; [lia|].
  cbn [retryFrom].
  destruct (decide (maxRetries - S r = first)%nat) as [Heq|Hne].
  - rewrite Heq. unfold outcomeAt in Hret.
    destruct (fn first (invoked fn first s)) as [[a'|] s1] eqn:E; cbn in Hret;
      [|discriminate].
    injection Hret as ->. rewrite invoked_step, E, Nat.sub_diag. cbn.
    rewrite app_nil_r. reflexivity.
  - pose proof (Hall (maxRetries - S r)%nat ltac:(lia)) as Hthrown.
    unfold outcomeAt in Hthrown.
    destruct (fn (maxRetries - S r)%nat (invoked fn (maxRetries - S r) s))
      as [[a'|] s1] eqn:E; cbn in Hthrown; [discriminate|].
    assert (s1 = invoked fn (maxRetries - r) s) as ->.
    { replace (maxRetries - r)%nat with (S (maxRetries - S r)) by lia.
      rewrite invoked_step, E. reflexivity. }
    rewrite IH by (try lia; intros k Hk; apply Hall; lia).
    f_equal. rewrite (proj2 (Nat.ltb_lt _ _)) by lia.
    rewrite <- app_assoc. f_equal. cbn [app].
    replace (first - (maxRetries - S r))%nat
      with (S (first - (maxRetries - r))) by lia.
    cbn [seq map]. unfold backoff at 2.
    replace (S (maxRetries - S r))%nat with (maxRetries - r)%nat by lia.
    reflexivity.
Qed.

(** X2. When attempt [first] is the first that returns, [retryWithBackoff]
    returns its value after [first + 1] invocations, having waited
    [baseDelay * 2 ^ k] after each of the [first] attempts that threw. *)
Theorem retryWithBackoff_first_return {St A : Type} (fn : nat -> St -> Outcome A * St)
    maxRetries baseDelay (s : St) first (a : A) :
  (first < maxRetries)%nat ->
  (forall k, (k < first)%nat -> outcomeAt fn k s = Thrown) ->
  outcomeAt fn first s = Returned a ->
  retryWithBackoff fn maxRetries baseDelay s
  = (Returned a, invoked fn (S first) s, map (backoff baseDelay) (seq 0 first)).
Proof.
  intros Hfirst Hall Hret. unfold retryWithBackoff.
  pose proof (retryFrom_first_return fn maxRetries baseDelay s first a Hfirst Hret
                maxRetries [] (Nat.le_refl _)) as Hrun.
  rewrite Nat.sub_diag in Hrun. cbn [invoked app] in Hrun.
  rewrite Nat.sub_0_r in Hrun.
  apply Hrun; [lia|]. intros k Hk. apply Hall. lia.
Qed.

Lemma retryWithBackoff_exhausted_witness :
  let fn := fun (k : nat) (s : nat) => (@Thrown unit, S s) in
  (forall k, (k < 3)%nat -> outcomeAt fn k 0%nat = Thrown)
  /\ retryWithBackoff fn 3 1000 0%nat = (Thrown, 3%nat, [1000; 2000]).
Proof.
  intros fn.
  assert (forall k, (k < 3)%nat -> outcomeAt fn k 0%nat = Thrown) as Hall
      by (intros k _; reflexivity).
  split; [exact Hall|].
  exact (retryWithBackoff_exhausted fn 3 1000 0%nat Hall).
Defined.

Lemma retryWithBackoff_first_return_witness :
  let fn := fun (k : nat) (s : nat) =>
              if (k =? 1)%nat then (Returned "done", S s) else (Thrown, S s) in
  (1 < 3)%nat
  /\ (forall k, (k < 1)%nat -> outcomeAt fn k 0%nat = Thrown)
  /\ outcomeAt fn 1 0%nat = Returned "done"
  /\ retryWithBackoff fn 3 1000 0%nat = (Returned "done", 2%nat, [1000]).
Proof.
  intros fn.
  assert (1 < 3)%nat as Hlt by lia.
  assert (forall k, (k < 1)%nat -> outcomeAt fn k 0%nat = Thrown) as Hall.
  { intros k Hk. assert (k = 0%nat) as -> by lia. reflexivity. }
  split; [exact Hlt|]. split; [exact Hall|]. split; [reflexivity|].
  exact (retryWithBackoff_first_return fn 3 1000 0%nat 1 "done" Hlt Hall eq_refl).
Defined.

Section PriceFurther.
Context `{Host}.

(** ** The round, fetcher by fetcher *)


(** ** Rate limiting *)

(** X4. A single 429 answer from CoinGecko, received while its breaker is
    closed, opens the breaker at once: the request was made, [null] is
    returned, two failures are counted and the cooldown runs from the
    clock at the answer. *)
Theorem coingecko_rate_limit_opens_breaker x (w : World) b body :
  circuitBreakers w !! "coingecko" = Some b ->
  isOpen b = false ->
  reply x = Response 429 body ->
  fst (fetchFromCoinGecko x w) = None
  /\ circuitBreakers (snd (fetchFromCoinGecko x w)) !! "coingecko"
     = Some {| failures := 2 + failures b; lastFailureTime := doneAt x; isOpen := true |}
  /\ fetched (snd (fetchFromCoinGecko x w)) = fetched w ++ [coinGeckoUrl].
Proof.
  intros Hb Hclosed Hreply. unfold fetchFromCoinGecko.
  rewrite (check_closed _ _ _ _ Hb Hclosed). cbn [negb].
  unfold coinGeckoTry. rewrite Hreply. cbn.
  split; [reflexivity|]. split; [|reflexivity].
  pose proof (recordFailure_lookup "coingecko" (doneAt x) _ _ Hb) as H1.
  assert (forceOpen "coingecko" (doneAt x)
            (recordFailure "coingecko" (doneAt x) (circuitBreakers w)) !! "coingecko"
          = Some {| failures := S (failures b); lastFailureTime := doneAt x;
                    isOpen := true |}) as H2.
  { unfold forceOpen. rewrite H1. apply lookup_insert_eq. }
  rewrite (recordFailure_lookup "coingecko" (doneAt x) _ _ H2).
  cbn [failures isOpen lastFailureTime].
  destruct (CIRCUIT_BREAKER_THRESHOLD <=? S (S (failures b)))%nat; reflexivity.
Qed.

(** ** Binance *)

Lemma binanceSymbolPromise_symbol replies symbol binanceSymbol result :
  binanceSymbolPromise replies (symbol, binanceSymbol) = Some result ->
  fst (fst result) = symbol.
Proof.
  unfold binanceSymbolPromise. destruct (String.eqb symbol "USDT").
  - intros [= <-]. reflexivity.
  - destruct (replies binanceSymbol) as [|status [ticker|]]; try discriminate;
      destruct (negb (ok status)); try discriminate.
    destruct (lastPrice ticker) as [lastText|]; [|discriminate].
    destruct (nonEmpty lastText); [|discriminate].
    intros [= <-]. reflexivity.
Qed.

(** One step of the loop over the settled results leaves the entries of the
    other symbols alone. *)
Lemma binance_step_other replies now symbol binanceSymbol (table : CryptoPrices) key :
  key <> symbol ->
  match binanceSymbolPromise replies (symbol, binanceSymbol) with
  | Some (s, price, change) =>
      if PrimFloat.ltb 0 price
      then <[s := {| price := price; change24h := change;
                     lastUpdated := toISOString now |}]> table
      else table
  | None => table
  end !! key = table !! key.
Proof.
  intros Hne.
  destruct (binanceSymbolPromise replies (symbol, binanceSymbol))
    as [[[s price] change]|] eqn:E; [|reflexivity].
  apply binanceSymbolPromise_symbol in E. cbn in E. subst s.
  destruct (PrimFloat.ltb 0 price); [|reflexivity].
  apply lookup_insert_ne. congruence.
Qed.

Lemma binance_holds_usdt replies now :
  binanceNewPrices (map (binanceSymbolPromise replies) BINANCE_SYMBOLS) now !! "USDT"
  = Some {| price := 1.0; change24h := 0.01; lastUpdated := toISOString now |}.
Proof.
  unfold binanceNewPrices, BINANCE_SYMBOLS. cbn [map fold_left].
  rewrite (binance_step_other replies now "SOL" "SOLUSDT") by discriminate.
  change (binanceSymbolPromise replies ("USDT", "USDTUSDT"))
    with (Some ("USDT", 1.0%float, 0.01%float)).
  change (PrimFloat.ltb 0 1.0) with true. cbn iota.
  apply lookup_insert_eq.
Qed.

(** X5. Let through by a closed breaker, [fetchFromBinance] never comes
    back empty-handed: whatever the network answers, it returns a table
    holding USDT at the fixed price 1.0 with change 0.01, requests the
    three other tickers, and leaves its breaker closed with no failure
    counted. *)
Theorem binance_always_returns_usdt x (w : World) b :
  circuitBreakers w !! "binance" = Some b ->
  isOpen b = false ->
  exists table,
    fst (fetchFromBinance x w) = Some table
    /\ table !! "USDT"
       = Some {| price := 1.0; change24h := 0.01;
                 lastUpdated := toISOString (doneAt x) |}
    /\ circuitBreakers (snd (fetchFromBinance x w)) !! "binance"
       = Some {| failures := 0; lastFailureTime := lastFailureTime b; isOpen := false |}
    /\ fetched (snd (fetchFromBinance x w)) = fetched w ++ binanceUrls.
Proof.
  intros Hb Hclosed. unfold fetchFromBinance.
  rewrite (check_closed _ _ _ _ Hb Hclosed). cbn [negb].
  unfold binanceTry.
  pose proof (binance_holds_usdt (reply x) (doneAt x)) as Husdt.
  set (newPrices := binanceNewPrices _ _) in *.
  assert (size newPrices <> 0%nat) as Hsize
      by (apply map_size_ne_0_lookup; exists "USDT"; rewrite Husdt; eauto).
  rewrite (proj2 (Nat.ltb_lt 0 (size newPrices))) by lia.
  exists newPrices. cbn. split; [reflexivity|]. split; [exact Husdt|].
  split; [|reflexivity].
  unfold recordSuccess. rewrite Hb. apply lookup_insert_eq.
Qed.

(** ** What a round writes *)

Lemma firstAvailable_source symbol srcs entry :
  firstAvailable symbol srcs = Some entry ->
  exists table, Some table ∈ srcs /\ table !! symbol = Some entry.
Proof.
  induction srcs as [|[table|] rest IH]; cbn; [discriminate| |].
  - destruct (table !! symbol) as [e|] eqn:E.
    + destruct (PrimFloat.ltb 0 (price e)).
      * intros [= <-]. exists table. split; [apply elem_of_cons; left; reflexivity|exact E].
      * intros Hrest. destruct (IH Hrest) as (t & Hin & Ht).
        exists t. split; [apply elem_of_cons; right; exact Hin|exact Ht].
    + intros Hrest. destruct (IH Hrest) as (t & Hin & Ht).
      exists t. split; [apply elem_of_cons; right; exact Hin|exact Ht].
  - intros Hrest. destruct (IH Hrest) as (t & Hin & Ht).
    exists t. split; [apply elem_of_cons; right; exact Hin|exact Ht].
Qed.

(** X6. Every entry of a merged table is for a known symbol, has a
    positive price, and is an entry one of the sources holds for that
    symbol, unchanged. *)
Theorem merged_entries_come_from_sources srcs symbol entry :
  mergePrices srcs !! symbol = Some entry ->
  symbol ∈ knownSymbols
  /\ PrimFloat.ltb 0 (price entry) = true
  /\ exists table, Some table ∈ srcs /\ table !! symbol = Some entry.
Proof.
  rewrite mergePrices_lookup. case_bool_decide as Hs; [|discriminate].
  intros Hfirst. split; [exact Hs|]. split.
  - exact (firstAvailable_positive _ _ _ Hfirst).
  - exact (firstAvailable_source _ _ _ Hfirst).
Qed.

(** X7. A round replaces the table wholesale: the table it writes holds
    exactly the four known symbols, and it is the same whatever table,
    flags and binding the call started from. *)
Theorem round_replaces_table seen now filledAt net st w :
  isFetching st = false ->
  (now - lastFetchTime st <? CACHE_DURATION) && (0 <? size seen)%nat = false ->
  let table := prices (fst (fetchPrices seen now filledAt net st w)) in
  dom table = list_to_set knownSymbols
  /\ forall seen' now' st',
       isFetching st' = false ->
       (now' - lastFetchTime st' <? CACHE_DURATION) && (0 <? size seen')%nat = false ->
       prices (fst (fetchPrices seen' now' filledAt net st' w)) = table.
Proof.
  intros Hf Hc table.
  assert (refreshes seen now st = true) as Hr
      by (unfold refreshes; rewrite Hf, Hc; reflexivity).
  destruct (fetchPrices_run seen now filledAt net st w Hr) as (Ht & _).
  fold table in Ht. split.
  - apply set_eq. intros symbol.
    rewrite elem_of_dom, elem_of_list_to_set, Ht, fillFallback_lookup, mergePrices_lookup.
    case_bool_decide as Hs.
    + split; [intros _; exact Hs|intros _].
      destruct (fallback_covers symbol Hs) as (fallback & Hfb & _).
      unfold filled. rewrite Hfb.
      destruct (firstAvailable symbol _) as [entry|]; cbn; [|eauto].
      destruct (PrimFloat.eqb (price entry) 0); eauto.
    + split; [intros [? Hx]; discriminate|intros Hx; contradiction].
  - intros seen' now' st' Hf' Hc'.
    assert (refreshes seen' now' st' = true) as Hr'
        by (unfold refreshes; rewrite Hf', Hc'; reflexivity).
    destruct (fetchPrices_run seen' now' filledAt net st' w Hr') as (Ht' & _).
    rewrite Ht', Ht. reflexivity.
Qed.

Lemma supplied_firstAvailable (r : Settled) symbol :
  supplied r symbol
  = match firstAvailable symbol (collectSources r) with
    | Some _ => true
    | None => false
    end.
Proof.
  rewrite firstAvailable_settled. unfold supplied, supplies.
  destruct (entryOf (coingeckoPrices r) symbol) as [e1|];
    [destruct (PrimFloat.ltb 0 (price e1)); [reflexivity|]|];
    (destruct (entryOf (coincapPrices r) symbol) as [e2|];
     [destruct (PrimFloat.ltb 0 (price e2)); [reflexivity|]|]);
    (destruct (entryOf (binancePrices r) symbol) as [e3|];
     [destruct (PrimFloat.ltb 0 (price e3)); reflexivity|reflexivity]).
Qed.

Lemma fetchPrices_error seen now filledAt net st w :
  refreshes seen now st = true ->
  error (fst (fetchPrices seen now filledAt net st w))
  = advisory (mergePrices (collectSources (fst (fetchSources net w)))).
Proof.
  unfold refreshes, fetchPrices. intros Hg.
  destruct (isFetching st); [discriminate|].
  destruct ((now - lastFetchTime st <? CACHE_DURATION) && (0 <? size seen)%nat);
    [discriminate|].
  destruct (fetchSources net w) as [settled w1]. cbn.
  destruct (size seen =? 0)%nat; reflexivity.
Qed.

(** X8. The advisory a round leaves tells how the table was filled: "All
    APIs failed" exactly when no source supplied a positive price for any
    known symbol, no advisory exactly when every known symbol was
    supplied by some source, and "Some prices unavailable" otherwise. *)
Theorem round_advisory seen now filledAt net st w :
  isFetching st = false ->
  (now - lastFetchTime st <? CACHE_DURATION) && (0 <? size seen)%nat = false ->
  let settled := fst (fetchSources net w) in
  error (fst (fetchPrices seen now filledAt net st w))
  = if forallb (fun symbol => negb (supplied settled symbol)) knownSymbols
    then Some "All APIs failed, using fallback prices"
    else if forallb (supplied settled) knownSymbols
    then None
    else Some "Some prices unavailable, using fallback for missing tokens".
Proof.
  intros Hf Hc settled.
  rewrite fetchPrices_error by (unfold refreshes; rewrite Hf, Hc; reflexivity).
  fold settled. rewrite knownSymbols_eq. cbn [forallb].
  rewrite !supplied_firstAvailable.
  unfold mergePrices. rewrite knownSymbols_eq. cbn [fold_left].
  destruct (firstAvailable "BTC" (collectSources settled)),
           (firstAvailable "ETH" (collectSources settled)),
           (firstAvailable "USDT" (collectSources settled)),
           (firstAvailable "SOL" (collectSources settled)); reflexivity.
Qed.

(** ** The mount effect and its interval *)

(** X9. The background fetch of the mount effect and of its interval
    never stops at the cache guard: it tests the empty table of the first
    render, so unless a fetch is in flight it runs a full round, however
    recent the last fetch and whatever the table holds. *)
Theorem background_fetch_ignores_cache now filledAt net st w :
  isFetching st = false ->
  let result := fetchInBackground now filledAt net st w in
  prices (fst result)
  = fillFallback filledAt (mergePrices (collectSources (fst (fetchSources net w))))
  /\ lastFetchTime (fst result) = now
  /\ snd result = snd (fetchSources net w).
Proof.
  intros Hf result. unfold result, fetchInBackground.
  assert (refreshes ∅ now st = true) as Hr.
  { unfold refreshes. rewrite Hf, andb_false_r. reflexivity. }
  destruct (fetchPrices_run ∅ now filledAt net st w Hr) as (Ht & Hl & _ & _ & Hw).
  auto.
Qed.

(** ** Formatting a change *)






(** ** Counting failures *)

Lemma last_cons (times : list Z) :
  forall time default, List.last (time :: times) default = List.last times time.
Proof.
  induction times as [|next rest IH]; intros time default; [reflexivity|].
  change (List.last (time :: next :: rest) default)
    with (List.last (next :: rest) default).
  rewrite (IH next default), (IH next time). reflexivity.
Qed.

Lemma recordFailures_from apiName times :
  forall (cbs : Breakers) b,
    cbs !! apiName = Some b ->
    isOpen b = (CIRCUIT_BREAKER_THRESHOLD <=? failures b)%nat ->
    recordFailures apiName times cbs !! apiName
    = Some {| failures := failures b + length times;
              lastFailureTime := List.last times (lastFailureTime b);
              isOpen := (CIRCUIT_BREAKER_THRESHOLD <=? failures b + length times)%nat |}.
Proof.
  induction times as [|time rest IH]; intros cbs b Hb Hopen.
  - unfold recordFailures. cbn [fold_left length List.last].
    rewrite Nat.add_0_r, <- Hopen, Hb. destruct b; reflexivity.
  - cbn [recordFailures fold_left].
    pose proof (recordFailure_lookup apiName time cbs b Hb) as Hstep.
    unfold recordFailures in IH. rewrite (IH _ _ Hstep).
    + cbn [failures lastFailureTime length]. rewrite last_cons.
      replace (S (failures b) + length rest)%nat
        with (failures b + S (length rest))%nat by lia.
      reflexivity.
    + cbn [failures isOpen]. rewrite Hopen. unfold CIRCUIT_BREAKER_THRESHOLD.
      destruct (Nat.leb_spec 3 (S (failures b))), (Nat.leb_spec 3 (failures b));
        try reflexivity; lia.
Qed.

(** X18. Failures count only in a row. After a success the counter is at
    zero and the breaker closed; the failures recorded from there on open
    the breaker exactly when there are three or more of them, and the
    cooldown runs from the last one. *)
Theorem failures_count_from_last_success apiName (cbs : Breakers) b times :
  cbs !! apiName = Some b ->
  recordFailures apiName times (recordSuccess apiName cbs) !! apiName
  = Some {| failures := length times;
            lastFailureTime := List.last times (lastFailureTime b);
            isOpen := (3 <=? length times)%nat |}.
Proof.
  intros Hb.
  assert (recordSuccess apiName cbs !! apiName
          = Some {| failures := 0; lastFailureTime := lastFailureTime b;
                    isOpen := false |}) as Hreset.
  { unfold recordSuccess. rewrite Hb. apply lookup_insert_eq. }
  rewrite (recordFailures_from apiName times _ _ Hreset eq_refl). reflexivity.
Qed.

(** ** What a fetcher returns *)

Lemma check_allows apiName now (cbs cbs' : Breakers) b :
  cbs !! apiName = Some b ->
  checkCircuitBreaker apiName now cbs = (true, cbs') ->
  exists b', cbs' !! apiName = Some b' /\ lastFailureTime b' = lastFailureTime b.
Proof.
  intros Hb. unfold checkCircuitBreaker. rewrite Hb.
  destruct (isOpen b).
  - destruct (CIRCUIT_BREAKER_RESET_TIME <? now - lastFailureTime b); [|discriminate].
    intros [= <-]. eexists. split; [apply lookup_insert_eq|reflexivity].
  - intros [= <-]. exists b. split; [exact Hb|reflexivity].
Qed.

Lemma recordSuccess_lookup apiName (cbs : Breakers) b :
  cbs !! apiName = Some b ->
  recordSuccess apiName cbs !! apiName
  = Some {| failures := 0; lastFailureTime := lastFailureTime b; isOpen := false |}.
Proof. intros Hb. unfold recordSuccess. rewrite Hb. apply lookup_insert_eq. Qed.

(** X19. A fetch attempt that returns a table returns one with at least
    one entry, has made its request, and leaves the breaker of its source
    closed with the failure counter at zero. *)
Theorem attempt_success_closes_breaker a (w w' : World) b table :
  circuitBreakers w !! attemptSource a = Some b ->
  runAttempt a w = (Some table, w') ->
  (0 < size table)%nat
  /\ circuitBreakers w' !! attemptSource a
     = Some {| failures := 0; lastFailureTime := lastFailureTime b; isOpen := false |}
  /\ exists requested, requested <> [] /\ fetched w' = fetched w ++ requested.
Proof.
  intros Hb. destruct w as [cbs log]. cbn in Hb.
  destruct a as [x|x|x]; cbn [runAttempt attemptSource] in Hb |- *.
  - unfold fetchFromCoinGecko. cbn [circuitBreakers fetched].
    destruct (checkCircuitBreaker "coingecko" (checkedAt x) cbs) as [[] cbs1] eqn:C;
      cbn [negb]; [|discriminate].
    destruct (check_allows _ _ _ _ _ Hb C) as (b1 & Hb1 & Hlast).
    destruct (coinGeckoTry x cbs1) as [[newPrices|] cbs2] eqn:T; [|discriminate].
    intros [= <- <-]. revert T. unfold coinGeckoTry.
    destruct (reply x) as [|status [data|]]; try discriminate;
      destruct (negb (ok status)); try discriminate;
      try (destruct (status =? 429); discriminate).
    destruct (coinGeckoNewPrices data (doneAt x)) as [prices0|]; [|discriminate].
    destruct (Nat.ltb_spec 0 (size prices0)); [|discriminate].
    intros [= <- <-]. cbn. split; [assumption|]. split.
    + rewrite (recordSuccess_lookup _ _ _ Hb1), Hlast. reflexivity.
    + eexists. split; [|reflexivity]. discriminate.
  - unfold fetchFromCoinCap. cbn [circuitBreakers fetched].
    destruct (checkCircuitBreaker "coincap" (checkedAt x) cbs) as [[] cbs1] eqn:C;
      cbn [negb]; [|discriminate].
    destruct (check_allows _ _ _ _ _ Hb C) as (b1 & Hb1 & Hlast).
    destruct (coinCapTry x cbs1) as [[newPrices|] cbs2] eqn:T; [|discriminate].
    intros [= <- <-]. revert T. unfold coinCapTry.
    destruct (reply x) as [|status [json|]]; try discriminate;
      destruct (negb (ok status)); try discriminate.
    destruct (Nat.ltb_spec 0 (size match data json with
                                   | Some assets => coinCapNewPrices assets (doneAt x)
                                   | None => ∅
                                   end)); [|discriminate].
    intros [= <- <-]. cbn. split; [assumption|]. split.
    + rewrite (recordSuccess_lookup _ _ _ Hb1), Hlast. reflexivity.
    + eexists. split; [|reflexivity]. discriminate.
  - unfold fetchFromBinance. cbn [circuitBreakers fetched].
    destruct (checkCircuitBreaker "binance" (checkedAt x) cbs) as [[] cbs1] eqn:C;
      cbn [negb]; [|discriminate].
    destruct (check_allows _ _ _ _ _ Hb C) as (b1 & Hb1 & Hlast).
    destruct (binanceTry x cbs1) as [[newPrices|] cbs2] eqn:T; [|discriminate].
    intros [= <- <-]. revert T. unfold binanceTry.
    destruct (Nat.ltb_spec 0 (size (binanceNewPrices
                                      (map (binanceSymbolPromise (reply x)) BINANCE_SYMBOLS)
                                      (doneAt x)))); [|discriminate].
    intros [= <- <-]. cbn. split; [assumption|]. split.
    + rewrite (recordSuccess_lookup _ _ _ Hb1), Hlast. reflexivity.
    + exists binanceUrls. split; [discriminate|reflexivity].
Qed.

(** X21. A fetch attempt let through by a closed breaker that returns
    [null] has counted at least one failure for its source and set the
    start of the cooldown to the clock at its end. *)
Theorem closed_breaker_failure_is_counted a (w w' : World) b :
  circuitBreakers w !! attemptSource a = Some b ->
  isOpen b = false ->
  runAttempt a w = (None, w') ->
  exists b',
    circuitBreakers w' !! attemptSource a = Some b'
    /\ (failures b < failures b')%nat
    /\ lastFailureTime b' = attemptDone a.
Proof. apply attempt_failure_recorded. Qed.

(** ** The table at mount *)

(** [fetchPricesStart] is the beginning of [fetchPrices]: a call returns
    at once exactly when the start does, and otherwise goes on from the
    state the start left. *)
Lemma fetchPrices_start seen now filledAt net st w :
  fetchPrices seen now filledAt net st w
  = match fetchPricesStart seen now st with
    | None => (st, w)
    | Some started =>
        let '(settled, w') := fetchSources net w in
        let mergedPrices := mergePrices (collectSources settled) in
        (setIsFetching false
           (setLoading false
              (setError (advisory mergedPrices)
                 (setLastFetchTime now
                    (setPrices (fillFallback filledAt mergedPrices) started)))),
         w')
    end.
Proof.
  unfold fetchPrices, fetchPricesStart.
  destruct (isFetching st); [reflexivity|].
  destruct ((now - lastFetchTime st <? CACHE_DURATION) && (0 <? size seen)%nat);
    reflexivity.
Qed.

(** X20. The mount effect installs, before any source has answered, a
    table holding the [FALLBACK_PRICES] entry of every known symbol, so
    [getPrice] is non-null for the known symbols from then on. The
    [loading] flag it lowers does not stay down: the background fetch
    started in the same run reads the empty [prices] of the first render
    and raises the flag again, so after the effect [loading] is true
    exactly when no fetch was already in flight. The flag is down once
    that background fetch has ended. *)
Theorem mount_installs_fallback_table builtAt now (st : HookState) symbol :
  symbol ∈ knownSymbols ->
  let mounted := mountEffect builtAt now st in
  loading mounted = negb (isFetching st)
  /\ isFetching mounted = true
  /\ (exists fallback,
         lookupKey symbol FALLBACK_PRICES = Some fallback
         /\ prices mounted !! symbol = Some (fallbackEntry fallback builtAt)
         /\ getPrice (prices mounted) symbol = Some (fallback_price fallback))
  /\ forall filledAt net w,
       loading (fst (mountAndFetch builtAt now filledAt net st w)) = false.
Proof.
  intros Hs mounted.
  assert (mounted
          = if isFetching st then installInitialPrices builtAt st
            else setLoading true
                   (setError None (setIsFetching true (installInitialPrices builtAt st))))
    as Hm.
  { unfold mounted, mountEffect, fetchPricesStart.
    cbn [isFetching installInitialPrices setLoading setPrices].
    destruct (isFetching st); [reflexivity|].
    rewrite map_size_empty, andb_false_r. reflexivity. }
  split; [rewrite Hm; destruct (isFetching st) eqn:E; cbn; [reflexivity|reflexivity]|].
  split; [rewrite Hm; destruct (isFetching st) eqn:E; cbn; [exact E|reflexivity]|].
  split.
  - destruct (fallback_covers symbol Hs) as (fallback & Hfb & Hpos).
    exists fallback. split; [exact Hfb|].
    assert (prices mounted !! symbol = Some (fallbackEntry fallback builtAt)) as Hentry.
    { rewrite Hm. destruct (isFetching st); cbn [prices setLoading setError setIsFetching
                                                   setPrices installInitialPrices];
        rewrite fallbackPrices_lookup by exact Hs; rewrite Hfb; reflexivity. }
    split; [exact Hentry|].
    apply (getPrice_positive _ _ _ (known_nonEmpty symbol Hs) Hentry Hpos).
  - intros filledAt net w. unfold mountAndFetch, fetchInBackground.
    destruct (refreshes ∅ now (installInitialPrices builtAt st)) eqn:Hr.
    + destruct (fetchPrices_run ∅ now filledAt net _ w Hr) as (_ & _ & _ & Hl & _).
      exact Hl.
    + rewrite fetchPrices_skip by exact Hr. reflexivity.
Qed.

End PriceFurther.

(** ** Closed instances *)

#[local] Existing Instance exampleHost.

Lemma coingecko_rate_limit_opens_breaker_witness :
  let x : Exchange (Reply CoinGeckoData) :=
    {| checkedAt := 1700000000000; reply := Response 429 None;
       doneAt := 1700000000400 |} in
  circuitBreakers freshWorld !! "coingecko" = Some closedBreaker
  /\ isOpen closedBreaker = false
  /\ reply x = Response 429 None
  /\ fst (fetchFromCoinGecko x freshWorld) = None
  /\ circuitBreakers (snd (fetchFromCoinGecko x freshWorld)) !! "coingecko"
     = Some {| failures := 2; lastFailureTime := 1700000000400; isOpen := true |}
  /\ fetched (snd (fetchFromCoinGecko x freshWorld)) = fetched freshWorld ++ [coinGeckoUrl].
Proof.
  intros x. split; [reflexivity|]. split; [reflexivity|]. split; [reflexivity|].
  exact (coingecko_rate_limit_opens_breaker x freshWorld closedBreaker None
           eq_refl eq_refl eq_refl).
Defined.

Lemma binance_always_returns_usdt_witness :
  circuitBreakers freshWorld !! "binance" = Some closedBreaker
  /\ isOpen closedBreaker = false
  /\ exists table,
       fst (fetchFromBinance (binanceNet deadNetwork 0%nat) freshWorld) = Some table
       /\ table !! "USDT"
          = Some {| price := 1.0; change24h := 0.01;
                    lastUpdated := toISOString (doneAt (binanceNet deadNetwork 0%nat)) |}
       /\ circuitBreakers (snd (fetchFromBinance (binanceNet deadNetwork 0%nat) freshWorld))
            !! "binance"
          = Some {| failures := 0; lastFailureTime := lastFailureTime closedBreaker;
                    isOpen := false |}
       /\ fetched (snd (fetchFromBinance (binanceNet deadNetwork 0%nat) freshWorld))
          = fetched freshWorld ++ binanceUrls.
Proof.
  split; [reflexivity|]. split; [reflexivity|].
  exact (binance_always_returns_usdt (binanceNet deadNetwork 0%nat) freshWorld
           closedBreaker eq_refl eq_refl).
Defined.

Lemma merged_entries_come_from_sources_witness :
  let entry := {| price := 95500; change24h := 1.2;
                  lastUpdated := "2025-01-01T00:00:00.000Z" |} in
  let srcs : list (option CryptoPrices) := [None; Some {[ "BTC" := entry ]}] in
  mergePrices srcs !! "BTC" = Some entry
  /\ "BTC" ∈ knownSymbols
  /\ PrimFloat.ltb 0 (price entry) = true
  /\ exists table, Some table ∈ srcs /\ table !! "BTC" = Some entry.
Proof.
  intros entry srcs. split; [reflexivity|].
  exact (merged_entries_come_from_sources srcs "BTC" entry eq_refl).
Defined.

Lemma round_replaces_table_witness :
  isFetching mountedHook = false
  /\ (1700000000000 - lastFetchTime mountedHook <? CACHE_DURATION)
     && (0 <? size (∅ : CryptoPrices))%nat = false
  /\ dom (prices (fst (fetchPrices ∅ 1700000000000 1700000000950 deadNetwork
                         mountedHook freshWorld)))
     = list_to_set knownSymbols.
Proof.
  split; [reflexivity|]. split; [reflexivity|].
  exact (proj1 (round_replaces_table ∅ 1700000000000 1700000000950 deadNetwork
                  mountedHook freshWorld eq_refl eq_refl)).
Defined.

Lemma round_advisory_witness :
  isFetching mountedHook = false
  /\ (1700000000000 - lastFetchTime mountedHook <? CACHE_DURATION)
     && (0 <? size (∅ : CryptoPrices))%nat = false
  /\ error (fst (fetchPrices ∅ 1700000000000 1700000000950 deadNetwork
                   mountedHook freshWorld))
     = if forallb (fun symbol =>
                     negb (supplied (fst (fetchSources deadNetwork freshWorld)) symbol))
                  knownSymbols
       then Some "All APIs failed, using fallback prices"
       else if forallb (supplied (fst (fetchSources deadNetwork freshWorld))) knownSymbols
       then None
       else Some "Some prices unavailable, using fallback for missing tokens".
Proof.
  split; [reflexivity|]. split; [reflexivity|].
  exact (round_advisory ∅ 1700000000000 1700000000950 deadNetwork
           mountedHook freshWorld eq_refl eq_refl).
Defined.

Lemma background_fetch_ignores_cache_witness :
  isFetching justFetched = false
  /\ (1700000005000 - lastFetchTime justFetched <? CACHE_DURATION) = true
  /\ (0 <? size (prices justFetched))%nat = true
  /\ lastFetchTime (fst (fetchInBackground 1700000005000 1700000005950 deadNetwork
                           justFetched freshWorld)) = 1700000005000
  /\ snd (fetchInBackground 1700000005000 1700000005950 deadNetwork
            justFetched freshWorld)
     = snd (fetchSources deadNetwork freshWorld).
Proof.
  split; [reflexivity|]. split; [reflexivity|]. split; [reflexivity|].
  exact (proj2 (background_fetch_ignores_cache 1700000005000 1700000005950 deadNetwork
                  justFetched freshWorld eq_refl)).
Defined.


Lemma failures_count_from_last_success_witness :
  circuitBreakers0 !! "coincap" = Some closedBreaker
  /\ recordFailures "coincap" [1000; 2000] (recordSuccess "coincap" circuitBreakers0)
       !! "coincap"
     = Some {| failures := 2; lastFailureTime := 2000; isOpen := false |}
  /\ recordFailures "coincap" [1000; 2000; 3000] (recordSuccess "coincap" circuitBreakers0)
       !! "coincap"
     = Some {| failures := 3; lastFailureTime := 3000; isOpen := true |}.
Proof.
  split; [reflexivity|]. split.
  - exact (failures_count_from_last_success "coincap" circuitBreakers0 closedBreaker
             [1000; 2000] eq_refl).
  - exact (failures_count_from_last_success "coincap" circuitBreakers0 closedBreaker
             [1000; 2000; 3000] eq_refl).
Defined.

Lemma attempt_success_closes_breaker_witness :
  let a := OnCoinCap RoundNotions.inheritedIdAnswer in
  let key := "function Object() { [native code] }" in
  let entry := {| price := 1; change24h := 0;
                  lastUpdated := "2023-11-14T22:13:20.600Z" |} in
  circuitBreakers freshWorld !! attemptSource a = Some closedBreaker
  /\ exists w',
       @runAttempt RoundNotions.roundHost a freshWorld = (Some {[ key := entry ]}, w')
       /\ (0 < size ({[ key := entry ]} : CryptoPrices))%nat
       /\ circuitBreakers w' !! attemptSource a
          = Some {| failures := 0; lastFailureTime := 0; isOpen := false |}
       /\ exists requested, requested <> [] /\ fetched w' = fetched freshWorld ++ requested.
Proof.
  intros a key entry. split; [reflexivity|].
  assert (exists w', @runAttempt RoundNotions.roundHost a freshWorld
                     = (Some {[ key := entry ]}, w'))
    as (w' & R) by (eexists; vm_compute; reflexivity).
  exists w'. split; [exact R|].
  exact (@attempt_success_closes_breaker RoundNotions.roundHost a freshWorld w'
           closedBreaker _ eq_refl R).
Defined.

Lemma mount_installs_fallback_table_witness :
  "SOL" ∈ knownSymbols
  /\ let mounted := mountEffect 1700000000000 1700000000001 mountedHook in
     loading mounted = true
     /\ isFetching mounted = true
     /\ (exists fallback,
            lookupKey "SOL" FALLBACK_PRICES = Some fallback
            /\ prices mounted !! "SOL" = Some (fallbackEntry fallback 1700000000000)
            /\ getPrice (prices mounted) "SOL" = Some (fallback_price fallback))
     /\ forall filledAt net w,
          loading (fst (mountAndFetch 1700000000000 1700000000001 filledAt net
                          mountedHook w)) = false.
Proof.
  assert ("SOL" ∈ knownSymbols) as Hs by (rewrite knownSymbols_eq; repeat constructor).
  split; [exact Hs|].
  exact (mount_installs_fallback_table 1700000000000 1700000000001 mountedHook "SOL" Hs).
Defined.

Lemma closed_breaker_failure_is_counted_witness :
  let a := OnCoinCap (coincapNet deadNetwork 0%nat) in
  circuitBreakers freshWorld !! attemptSource a = Some closedBreaker
  /\ isOpen closedBreaker = false
  /\ exists w',
       runAttempt a freshWorld = (None, w')
       /\ exists b',
            circuitBreakers w' !! attemptSource a = Some b'
            /\ (failures closedBreaker < failures b')%nat
            /\ lastFailureTime b' = attemptDone a.
Proof.
  intros a. split; [reflexivity|]. split; [reflexivity|].
  assert (exists w', runAttempt a freshWorld = (None, w'))
    as (w' & R) by (eexists; vm_compute; reflexivity).
  exists w'. split; [exact R|].
  exact (closed_breaker_failure_is_counted a freshWorld w' closedBreaker
           eq_refl eq_refl R).
Defined.

End PriceExtras.

(** * Whole rounds *)

Module RoundProofs.
Import Js CryptoPrices PriceHookRest PriceNotions MoreNotions RoundNotions.
Import PriceProofs PriceExtras.

Section RoundFacts.
Context `{Host}.

(** ** Each source keeps to its own breaker *)









(** ** Binance behind a closed breaker *)


(** ** Merge order *)





End RoundFacts.

(** ** Closed rounds *)

#[local] Existing Instance roundHost.



(** ** The cache window *)


End RoundProofs.

(** * Further properties of the balance hook *)

Module BalanceExtras.
Import Js BalanceHook BalanceHookRest BalanceNotions MoreNotions BalanceProofs.

(** ** The loading flag *)

Lemma loadFinally_loading showLoading retryCount st :
  (showLoading = true \/ retryCount = 0%nat \/ loading st = false) ->
  loading (loadFinally showLoading retryCount st) = false.
Proof.
  unfold loadFinally. intros [-> | [-> | Hl]]; cbn; [reflexivity| |].
  - rewrite orb_true_r. reflexivity.
  - destruct (showLoading || (retryCount =? 0)%nat); [reflexivity|exact Hl].
Qed.

Lemma loadFinally_userIdRef showLoading retryCount st :
  userIdRef (loadFinally showLoading retryCount st) = userIdRef st.
Proof.
  unfold loadFinally. destruct (showLoading || (retryCount =? 0)%nat); reflexivity.
Qed.

(** An invocation that is the first of its call, or that finds the flag
    down, leaves the flag down; no invocation touches [userIdRef]. *)
Lemma loadBalancesOnce_loading u showLoading retryCount result st :
  (retryCount = 0%nat \/ loading st = false) ->
  loading (fst (loadBalancesOnce (Some u) showLoading retryCount result st)) = false
  /\ userIdRef (fst (loadBalancesOnce (Some u) showLoading retryCount result st))
     = userIdRef st.
Proof.
  intros Hstart. unfold loadBalancesOnce.
  assert (forall st1, userIdRef st1 = userIdRef st ->
            (showLoading = true \/ retryCount = 0%nat \/ loading st1 = false) ->
            loading (loadFinally showLoading retryCount st1) = false
            /\ userIdRef (loadFinally showLoading retryCount st1) = userIdRef st) as Hfin.
  { intros st1 Hu Hc. split; [apply loadFinally_loading; exact Hc|].
    rewrite loadFinally_userIdRef. exact Hu. }
  assert (showLoading = true \/ retryCount = 0%nat
          \/ loading (if showLoading && (retryCount =? 0)%nat
                      then setLoading true st else st) = false) as Hc.
  { destruct showLoading; [left; reflexivity|right]. cbn.
    destruct Hstart as [-> | Hl]; [left; reflexivity|right; exact Hl]. }
  assert (userIdRef (if showLoading && (retryCount =? 0)%nat
                     then setLoading true st else st) = userIdRef st) as Hu
      by (destruct (showLoading && (retryCount =? 0)%nat); reflexivity).
  destruct result as [code message|[rows|]|];
    try (destruct (_ <? _)%nat); cbn [fst];
    apply Hfin; cbn; auto.
Qed.

Lemma loadBalancesFrom_loading fuel u showLoading results :
  forall retryCount st waited st' waited',
    (retryCount = 0%nat \/ loading st = false) ->
    loadBalancesFrom fuel (Some u) showLoading retryCount results st waited
    = Some (st', waited') ->
    loading st' = false /\ userIdRef st' = userIdRef st.
Proof.
  induction fuel as [|fuel IH]; intros retryCount st waited st' waited' Hstart;
    [discriminate|].
  cbn [loadBalancesFrom].
  pose proof (loadBalancesOnce_loading u showLoading retryCount
                (results retryCount) st Hstart) as [Hl Hu].
  destruct (loadBalancesOnce (Some u) showLoading retryCount (results retryCount) st)
    as [st1 [[delay next]|]]; cbn in Hl, Hu.
  - intros Hrun. destruct (IH _ _ _ _ _ (or_intror Hl) Hrun) as [Hl' Hu'].
    split; [exact Hl'|congruence].
  - intros [= <- <-]. split; assumption.
Qed.

(** X12. A [loadBalances] call started with [retryCount] 0 for a session
    user ends with the loading flag down, whether its reads succeed, fail
    or are retried, and with or without the loading indicator; it never
    changes [userIdRef]. *)
Theorem load_ends_with_loading_false u showLoading results st :
  exists st' waited,
    loadBalances (Some u) showLoading 0 results st = Some (st', waited)
    /\ loading st' = false
    /\ userIdRef st' = userIdRef st.
Proof.
  destruct (loadBalances_runs (Some u) showLoading 0 results st)
    as (st' & waited & Hrun & _).
  exists st', waited. split; [exact Hrun|].
  exact (loadBalancesFrom_loading _ u showLoading results 0%nat st [] st' waited
           (or_introl eq_refl) Hrun).
Qed.

(** ** The retry schedule *)

Lemma loadBalancesOnce_next u showLoading retryCount result st :
  snd (loadBalancesOnce (Some u) showLoading retryCount result st)
  = if failed result && (retryCount <? MAX_RETRIES)%nat
    then Some (retryDelay retryCount, S retryCount) else None.
Proof.
  unfold loadBalancesOnce.
  destruct result as [code message|data|]; cbn [failed andb];
    destruct (retryCount <? MAX_RETRIES)%nat; reflexivity.
Qed.

Lemma loadBalancesFrom_schedule fuel u showLoading results :
  forall retryCount st waited,
    (retryCount <= MAX_RETRIES)%nat ->
    (MAX_RETRIES - retryCount < fuel)%nat ->
    exists st' last,
      (retryCount <= last <= MAX_RETRIES)%nat
      /\ loadBalancesFrom fuel (Some u) showLoading retryCount results st waited
         = Some (st', waited ++ map retryDelay (seq retryCount (last - retryCount)))
      /\ (forall k, (retryCount <= k < last)%nat -> failed (results k) = true)
      /\ ((last < MAX_RETRIES)%nat -> failed (results last) = false).
Proof.
  induction fuel as [|fuel IH]; intros retryCount st waited Hle Hfuel; [lia|].
  cbn [loadBalancesFrom].
  pose proof (loadBalancesOnce_next u showLoading retryCount (results retryCount) st)
    as Hnext.
  destruct (loadBalancesOnce (Some u) showLoading retryCount (results retryCount) st)
    as [st1 next]; cbn [snd] in Hnext. subst next.
  destruct (failed (results retryCount)) eqn:Hfail; cbn [andb].
  - destruct (Nat.ltb_spec retryCount MAX_RETRIES) as [Hlt|Hge]; cbv iota beta.
    + destruct (IH (S retryCount) st1 (waited ++ [retryDelay retryCount])
                  ltac:(lia) ltac:(lia)) as (st' & last & Hlast & Hrun & Hbefore & Hend).
      exists st', last. split; [lia|]. split; [|split].
      * rewrite Hrun. f_equal. f_equal. rewrite <- app_assoc. f_equal.
        replace (last - retryCount)%nat with (S (last - S retryCount)) by lia.
        reflexivity.
      * intros k Hk. destruct (decide (k = retryCount)) as [->|Hne];
          [exact Hfail|apply Hbefore; lia].
      * exact Hend.
    + exists st1, retryCount. split; [lia|]. split; [|split].
      * rewrite Nat.sub_diag. cbn. rewrite app_nil_r. reflexivity.
      * intros k Hk. lia.
      * intros Hlt. lia.
  - exists st1, retryCount. split; [lia|]. split; [|split].
    + rewrite Nat.sub_diag. cbn. rewrite app_nil_r. reflexivity.
    + intros k Hk. lia.
    + intros _. exact Hfail.
Qed.

(** X13. A [loadBalances] call for a session user makes at most four
    reads and retries after 1000, 2000 and 3000 ms: if [last] is its last
    read, every read before it failed, the delays waited are the first
    [last] of the three, and [last] is below 3 only when that read did
    not fail. *)
Theorem load_retry_schedule u showLoading results st :
  exists st' last,
    (last <= 3)%nat
    /\ loadBalances (Some u) showLoading 0 results st
       = Some (st', take last [1000; 2000; 3000])
    /\ (forall k, (k < last)%nat -> failed (results k) = true)
    /\ ((last < 3)%nat -> failed (results last) = false).
Proof.
  destruct (loadBalancesFrom_schedule (S (MAX_RETRIES - 0)) u showLoading results
              0%nat st [] ltac:(unfold MAX_RETRIES; lia) ltac:(lia))
    as (st' & last & Hlast & Hrun & Hbefore & Hend).
  exists st', last. unfold MAX_RETRIES in Hlast, Hend.
  split; [lia|]. split; [|split].
  - unfold loadBalances. rewrite Hrun. rewrite Nat.sub_0_r. cbn [app].
    assert (last = 0 \/ last = 1 \/ last = 2 \/ last = 3)%nat
      as [-> | [-> | [-> | ->]]] by lia; reflexivity.
  - intros k Hk. apply Hbefore. lia.
  - exact Hend.
Qed.

(** ** Reading a balance *)

Lemma orZero_not_nan (x : float) : isNaN (orZero x) = false.
Proof.
  unfold orZero, truthy. destruct (PrimFloat.eqb x 0); cbn; [reflexivity|].
  destruct (isNaN x) eqn:E; cbn; [reflexivity|exact E].
Qed.

(** X14. [getBalance] never returns [NaN]: it is 0 for a token without a
    row, and otherwise the amount of the first row of that token, with 0
    in place of a [NaN] amount. *)
Theorem getBalance_is_a_number (st : HookState) (name : string) :
  isNaN (getBalance st name) = false
  /\ ((forall b, b ∈ balances st -> token b <> name) -> getBalance st name = 0%float)
  /\ (forall before b after,
         balances st = before ++ b :: after ->
         token b = name ->
         (forall b', b' ∈ before -> token b' <> name) ->
         getBalance st name = orZero (balance b)).
Proof.
  unfold getBalance. split; [|split].
  - destruct (find _ (balances st)); [apply orZero_not_nan|reflexivity].
  - intros Hnone.
    destruct (find (fun b => String.eqb (token b) name) (balances st)) as [b|] eqn:F;
      [|reflexivity].
    apply find_some in F as [Hin Hb]. apply String.eqb_eq in Hb.
    exfalso. apply (Hnone b); [apply list_elem_of_In; exact Hin|exact Hb].
  - intros before b after -> Hb Hbefore.
    assert (find (fun b0 => String.eqb (token b0) name) (before ++ b :: after) = Some b)
      as ->; [|reflexivity].
    induction before as [|b0 rest IH]; cbn.
    + rewrite (proj2 (String.eqb_eq _ _) Hb). reflexivity.
    + rewrite (proj2 (String.eqb_neq _ _)).
      * apply IH. intros b' Hin. apply Hbefore. apply elem_of_cons. right. exact Hin.
      * apply Hbefore. apply elem_of_cons. left. reflexivity.
Qed.

(** ** The session effect *)

(** X15. After the session effect has run, [userIdRef] holds the id of
    the user it ran for ([null] without a user), and running it again for
    the same user changes nothing: signing out clears snapshot and flag
    once, and a signed-in user's snapshot is left alone. *)
Theorem session_effect_tracks_user (user : option User) (st : HookState) :
  let after := fst (useBalanceEffect user st) in
  userIdRef after = id <$> user
  /\ snd (useBalanceEffect user st) = bool_decide (is_Some user)
  /\ fst (useBalanceEffect user after) = after
  /\ (user = None -> balances after = [] \/ (userIdRef st = None /\ after = st)).
Proof.
  unfold useBalanceEffect. destruct user as [u|]; cbn.
  - split; [|split; [reflexivity|split; [|discriminate]]].
    + destruct (negb (bool_decide (userIdRef st = Some (id u)))); reflexivity.
    + destruct (bool_decide (userIdRef st = Some (id u))); cbn;
        rewrite bool_decide_eq_true_2 by reflexivity; reflexivity.
  - destruct (userIdRef st) as [held|] eqn:Href; cbn.
    + repeat split. intros _. left. reflexivity.
    + rewrite Href. repeat split. intros _. right. split; reflexivity.
Qed.

(** ** Teardown *)

Lemma status_during_cleanup status loc timers :
  isCleaningUp loc = true ->
  onSubscriptionStatus status loc timers = (loc, timers).
Proof. intros Hc. unfold onSubscriptionStatus. rewrite Hc. reflexivity. Qed.

(** X16. The cleanup of the effect cancels the poll it holds, and from
    then on no status callback, whatever it reports and however many
    arrive, starts a poll or changes anything. *)
Theorem cleanup_silences_status_callbacks loc timers statuses :
  let torn := cleanup loc timers in
  isCleaningUp (fst torn) = true
  /\ pollInterval (fst torn) = None
  /\ (forall handle, pollInterval loc = Some handle ->
                     active (snd torn) !! handle = None)
  /\ runStatuses statuses (fst torn) (snd torn) = torn.
Proof.
  intros torn.
  assert (isCleaningUp (fst torn) = true) as Hc
      by (unfold torn, cleanup; cbn; destruct (pollInterval loc); reflexivity).
  split; [exact Hc|]. split; [|split].
  - unfold torn, cleanup. cbn. destruct (pollInterval loc); reflexivity.
  - intros handle Hheld. unfold torn, cleanup. cbn. rewrite Hheld. cbn.
    apply lookup_delete_eq.
  - destruct torn as [loc' timers']. cbn in Hc |- *.
    induction statuses as [|status rest IH]; [reflexivity|].
    cbn [runStatuses]. rewrite (status_during_cleanup status loc' timers' Hc).
    exact IH.
Qed.

(** ** One poll at a time *)

Lemma startPolling_onePoll others loc timers :
  onePollAtMost others loc timers ->
  onePollAtMost others (fst (startPolling loc timers)) (snd (startPolling loc timers)).
Proof.
  intros [Hbound Hshape]. unfold startPolling.
  destruct (pollInterval loc) as [held|] eqn:Hp.
  - cbn. split; [exact Hbound|]. rewrite Hp. exact Hshape.
  - destruct (negb (isCleaningUp loc)); cbn.
    + assert (others !! nextHandle timers = None) as Hfresh.
      { rewrite <- Hshape.
        destruct (active timers !! nextHandle timers) as [running|] eqn:E;
          [|reflexivity].
        pose proof (Hbound (nextHandle timers) ltac:(rewrite E; eauto)). lia. }
      split.
      * intros handle Hsome. cbn [active nextHandle] in Hsome |- *.
        apply lookup_insert_is_Some' in Hsome as [<-|Hold];
          [lia|]. specialize (Hbound handle Hold). lia.
      * split; [exact Hfresh|]. rewrite Hshape. reflexivity.
    + split; [exact Hbound|]. rewrite Hp. exact Hshape.
Qed.

Lemma status_onePoll others status loc timers :
  onePollAtMost others loc timers ->
  onePollAtMost others (fst (onSubscriptionStatus status loc timers))
    (snd (onSubscriptionStatus status loc timers)).
Proof.
  intros Hinv. unfold onSubscriptionStatus.
  destruct (isCleaningUp loc); [exact Hinv|].
  destruct status; try (apply startPolling_onePoll; exact Hinv).
  destruct Hinv as [Hbound Hshape].
  destruct (pollInterval loc) as [held|] eqn:Hp; cbn.
  - destruct Hshape as [Hfresh Hactive]. split.
    + intros handle Hsome. unfold clearInterval in Hsome |- *.
      cbn [active nextHandle] in Hsome |- *.
      apply lookup_delete_is_Some in Hsome as [_ Hold].
      exact (Hbound handle Hold).
    + unfold clearInterval. cbn [active].
      rewrite Hactive. apply delete_insert_id. exact Hfresh.
  - split; [exact Hbound|]. rewrite Hp. exact Hshape.
Qed.

(** X17. The effect never runs two polls at once: starting where the
    timers are those of the rest of the page plus at most the poll it
    holds, any sequence of status callbacks leaves the timers of the rest
    of the page untouched and at most one poll beside them. *)
Theorem at_most_one_poll others statuses loc timers :
  onePollAtMost others loc timers ->
  let after := runStatuses statuses loc timers in
  onePollAtMost others (fst after) (snd after)
  /\ (size (active (snd after)) <= S (size others))%nat.
Proof.
  intros Hinv after.
  assert (onePollAtMost others (fst after) (snd after)) as Hafter.
  { unfold after. clear after. revert loc timers Hinv.
    induction statuses as [|status rest IH]; intros loc timers Hinv; [exact Hinv|].
    cbn [runStatuses].
    pose proof (status_onePoll others status loc timers Hinv) as Hstep.
    destruct (onSubscriptionStatus status loc timers) as [loc1 timers1].
    apply IH. exact Hstep. }
  split; [exact Hafter|].
  destruct Hafter as [_ Hshape].
  destruct (pollInterval (fst after)) as [held|].
  - destruct Hshape as [Hfresh ->]. rewrite map_size_insert_None by exact Hfresh. lia.
  - rewrite Hshape. lia.
Qed.

(** ** Closed instances *)

Lemma at_most_one_poll_witness :
  let live := {| pollInterval := None; isCleaningUp := false |} in
  let statuses := [CHANNEL_ERROR; TIMED_OUT; CLOSED; SUBSCRIBED; CLOSED] in
  onePollAtMost ∅ live noTimers
  /\ onePollAtMost ∅ (fst (runStatuses statuses live noTimers))
       (snd (runStatuses statuses live noTimers))
  /\ (size (active (snd (runStatuses statuses live noTimers))) <= S (size (∅ : gmap positive Interval)))%nat.
Proof.
  intros live statuses.
  assert (onePollAtMost ∅ live noTimers) as Hinv.
  { split; [|reflexivity]. intros handle [running Hrun].
    unfold noTimers in Hrun. cbn [active] in Hrun.
    rewrite lookup_empty in Hrun. discriminate. }
  split; [exact Hinv|].
  exact (at_most_one_poll ∅ statuses live noTimers Hinv).
Defined.

End BalanceExtras.
